(** * The image -> caption -> story -> speech pipeline of [app.py]

    A shallow embedding of [src/app.py].  The program is sequential glue
    code around three external services, so the embedding is a state and
    exception monad over a [World] (an event log and a file system), and
    the services are fields of an environment record [Env]. *)

From Stdlib Require Import String Ascii ZArith List Bool Lia.
From stdpp Require Import base gmap strings list.
Import ListNotations.
Local Open Scope string_scope.
Local Open Scope Z_scope.

(** ** Python values and exceptions *)

Definition bytes := list Byte.byte.

(** The exceptions the modelled code can raise by itself, and [External]
    for whatever a service or a library call raises. *)
Inductive exn : Type :=
| IndexError (msg : string)
| KeyError (key : string)
| ValueError (msg : string)
| FormatUnmodelled (field : string)
| External (what : string).

Inductive result (A : Type) : Type :=
| Ok (a : A)
| Raise (e : exn).
Arguments Ok {A} a.
Arguments Raise {A} e.

Definition result_map {A B} (f : A -> B) (r : result A) : result B :=
  match r with
  | Ok a => Ok (f a)
  | Raise e => Raise e
  end.

(** [str(x)] inside an f-string, for a value that is a [str] or [None]. *)
Definition str_of_optional (o : option string) : string :=
  match o with
  | Some s => s
  | None => "None"
  end.

(** ** The observable world *)

(** [st.*] calls of the presentation layer. *)
Inductive StCall : Type :=
| StSetPageConfig (page_title page_icon layout : string)
| StMarkdown (body : string) (unsafe_allow_html : bool)
| StImage (image : string) (caption : option string) (use_column_width : bool)
| StWrite (text : string)
| StHeader (text : string)
| StFileUploader (label type : string)
| StProgress (value : Z) (text : string)
| StProgressEmpty
| StAudio (path : string)
| StWithin (container : string) (call : StCall).

Record ChatModel := { model_name : string; temperature : Z }.

Record Response := {
  status_code : Z;
  response_headers : gmap string string;
  content : bytes
}.

Record UploadedFile := { name : string; getvalue : bytes }.

Inductive Event : Type :=
| EvPrint (line : string)
| EvPrintUploaded (f : UploadedFile)
| EvSt (call : StCall)
| EvSleep (milliseconds : Z)
| EvPipeline (task model : string)
| EvImageToText (url : string)
| EvChatOpenAI (model_name : string) (temperature : Z)
| EvPredict (llm : ChatModel) (prompt : string)
| EvPost (url : string) (headers json : gmap string string)
| EvOpenWb (path : string)
| EvFileWrite (path : string) (data : bytes).

(** [log] holds the events most recent first; [trace] reads them in the
    order they happened. *)
Record World := { log : list Event; files : gmap string bytes }.

Definition trace (w : World) : list Event := rev (log w).

(** ** The environment: configuration and external services *)

Record Env := {
  (** the process environment after [load_dotenv(find_dotenv())] *)
  environ : gmap string string;
  (** [utils.custom.css_code] *)
  css_code : string;
  (** [transformers.pipeline(task, model=...)]: loads a model and returns
      the callable that maps an image location to candidate records *)
  pipeline : string -> string ->
             result (string -> result (list (gmap string string)));
  (** the check [ChatOpenAI(...)] runs on the process environment when it
      is constructed *)
  validate_environment : gmap string string -> result unit;
  (** what [LLMChain.predict] gets for a formatted prompt from the chat
      client, whose own attempts at the request are not told apart *)
  chat_completion : ChatModel -> string -> result string;
  (** [requests.post(url, headers=..., json=...)] *)
  requests_post : string -> gmap string string -> gmap string string ->
                  result Response;
  (** what [st.file_uploader] hands back on this run of the script *)
  file_uploader : option UploadedFile
}.

Definition os_getenv (E : Env) (key : string) : option string :=
  environ E !! key.

Definition HUGGINGFACE_API_TOKEN (E : Env) : option string :=
  os_getenv E "HUGGINGFACE_API_TOKEN".

Definition OPENAI_API_KEY (E : Env) : option string :=
  os_getenv E "OPENAI_API_KEY".

(** ** The monad: state passing, exceptions keep the state reached *)

Definition M (A : Type) : Type := World -> result A * World.

Definition ret {A} (a : A) : M A := fun w => (Ok a, w).

Definition bind {A B} (m : M A) (k : A -> M B) : M B :=
  fun w =>
    match m w with
    | (Ok a, w') => k a w'
    | (Raise e, w') => (Raise e, w')
    end.

Definition lift {A} (r : result A) : M A := fun w => (r, w).

Definition emit (e : Event) : M unit :=
  fun w => (Ok tt, {| log := e :: log w; files := files w |}).

Declare Scope py_scope.
Delimit Scope py_scope with py.
Notation "x <- m ;; k" := (bind m (fun x => k))
  (at level 100, m at next level, right associativity) : py_scope.
Notation "m ;;; k" := (bind m (fun _ => k))
  (at level 100, right associativity) : py_scope.
Local Open Scope py_scope.

Fixpoint for_each {A} (l : list A) (body : A -> M unit) : M unit :=
  match l with
  | [] => ret tt
  | x :: l' => body x ;;; for_each l' body
  end.

(** [range(n)] *)
Definition range (n : Z) : list Z := map Z.of_nat (seq 0 (Z.to_nat n)).

Definition print (line : string) : M unit := emit (EvPrint line).
Definition st (call : StCall) : M unit := emit (EvSt call).
Definition time_sleep (milliseconds : Z) : M unit := emit (EvSleep milliseconds).

(** [with open(path, "wb") as file: file.write(data)]: opening truncates,
    writing appends to what the file then holds. *)
Definition open_wb (path : string) : M unit :=
  fun w => (Ok tt, {| log := EvOpenWb path :: log w;
                      files := <[path := []]> (files w) |}).

Definition file_write (path : string) (data : bytes) : M unit :=
  fun w => (Ok tt, {| log := EvFileWrite path data :: log w;
                      files := <[path := (default [] (files w !! path) ++ data)%list]>
                               (files w) |}).

(** [l[i]] on a list and [d[k]] on a dict. *)
Definition list_index {A} (l : list A) (i : nat) : M A :=
  match l !! i with
  | Some x => ret x
  | None => lift (Raise (IndexError "list index out of range"))
  end.

Definition dict_get (d : gmap string string) (k : string) : M string :=
  match d !! k with
  | Some v => ret v
  | None => lift (Raise (KeyError k))
  end.

(** ** [str.format] with keyword arguments

    [PromptTemplate] keeps its template as a format string (its default
    template format) and [LLMChain.predict] fills it with [str.format]
    from its keyword arguments.  The scanner below follows Python's
    format-string syntax: [{{] and [}}] stand for one brace, [{name}] is
    replaced by [kwargs[name]], a brace that opens or closes nothing is a
    [ValueError], and a keyword argument that no field names is ignored.
    Replacement fields that use a conversion, a format specification, an
    attribute or an index ([!], [:], [.], [[]) are not evaluated: the
    model stops there with [FormatUnmodelled]. *)

Inductive fmt_state : Type :=
| InText
| SeenOpen
| SeenClose
| InField (field_name : string).

Definition is_digit (c : ascii) : bool :=
  ((48 <=? nat_of_ascii c) && (nat_of_ascii c <=? 57))%nat.

Fixpoint all_digits (s : string) : bool :=
  match s with
  | EmptyString => true
  | String c s' => is_digit c && all_digits s'
  end.

(** The value of a replacement field: an empty or numeric name indexes
    the (empty) tuple of positional arguments, any other name is looked up
    among the keyword arguments. *)
Definition get_value (kwargs : gmap string string) (field_name : string)
  : result string :=
  if all_digits field_name
  then Raise (IndexError "Replacement index out of range for positional args tuple")
  else match kwargs !! field_name with
       | Some v => Ok v
       | None => Raise (KeyError field_name)
       end.

Inductive field_action : Type :=
| FieldEnds
| FieldGrows (field_name : string)
| FieldFails (e : exn).

Definition field_char (field_name : string) (c : ascii) : field_action :=
  if Ascii.eqb c "}" then FieldEnds
  else if Ascii.eqb c "{" then FieldFails (ValueError "unexpected '{' in field name")
  else if Ascii.eqb c "!" || Ascii.eqb c ":" || Ascii.eqb c "." || Ascii.eqb c "["
       then FieldFails (FormatUnmodelled (field_name +:+ String c ""))
  else FieldGrows (field_name +:+ String c "").

Definition is_brace (c : ascii) : bool := Ascii.eqb c "{" || Ascii.eqb c "}".

Fixpoint format_from (kwargs : gmap string string) (state : fmt_state) (s : string)
  : result string :=
  match s with
  | EmptyString =>
      match state with
      | InText => Ok ""
      | SeenOpen => Raise (ValueError "Single '{' encountered in format string")
      | SeenClose => Raise (ValueError "Single '}' encountered in format string")
      | InField _ => Raise (ValueError "expected '}' before end of string")
      end
  | String c s' =>
      let in_field field_name :=
        match field_char field_name c with
        | FieldEnds =>
            match get_value kwargs field_name with
            | Ok v => result_map (String.append v) (format_from kwargs InText s')
            | Raise e => Raise e
            end
        | FieldGrows field_name' => format_from kwargs (InField field_name') s'
        | FieldFails e => Raise e
        end in
      match state with
      | InText =>
          if Ascii.eqb c "{" then format_from kwargs SeenOpen s'
          else if Ascii.eqb c "}" then format_from kwargs SeenClose s'
          else result_map (String c) (format_from kwargs InText s')
      | SeenOpen =>
          if Ascii.eqb c "{"
          then result_map (String c) (format_from kwargs InText s')
          else in_field ""
      | SeenClose =>
          if Ascii.eqb c "}"
          then result_map (String c) (format_from kwargs InText s')
          else Raise (ValueError "Single '}' encountered in format string")
      | InField field_name => in_field field_name
      end
  end.

Definition str_format (template : string) (kwargs : gmap string string)
  : result string :=
  format_from kwargs InText template.

(** ** The prompt library objects the storyteller builds

    Building a [PromptTemplate] or an [LLMChain] stores the arguments as
    they are; what the chain prints when [verbose] is set is left out of
    the trace.  [EvPredict] records the call of [predict] with the prompt
    it has formatted, not each attempt the client makes at the request.
    A library that already reads the template when the [PromptTemplate]
    is built rejects a malformed one before the client is constructed:
    what is stated about the order of these two steps is stated for
    scenarios without braces. *)

Record PromptTemplate := { template : string; input_variables : list string }.

Record LLMChain := { llm : ChatModel; prompt : PromptTemplate; verbose : bool }.

Definition nl : string := String (ascii_of_nat 10) "".

(** The text of the f-string of [generate_story_from_text] before and
    after its only replacement field, [{scenario}]. *)
Definition template_prefix : string :=
  nl +:+ "    You are a story teller;" +:+ nl
  +:+ "    You can generate a short story based on a simple narrative, the story should be no more than 20 words;" +:+ nl
  +:+ "    " +:+ nl
  +:+ "    CONTEXT: ".

Definition template_suffix : string :=
  nl +:+ "    STORY:" +:+ nl +:+ "    ".

Definition API_URL : string :=
  "https://api-inference.huggingface.co/models/espnet/kan-bayashi_ljspeech_vits".

Section Program.

Variable E : Env.

(** [progress_bar(amount_of_time)]; sleeps are in milliseconds. *)
Definition progress_bar (amount_of_time : Z) : M unit :=
  let progress_text := "Please wait, Generative models hard at work" in
  st (StProgress 0 progress_text) ;;;
  for_each (range amount_of_time) (fun percent_complete =>
    time_sleep 40 ;;;
    st (StProgress (percent_complete + 1) progress_text)) ;;;
  time_sleep 1000 ;;;
  st StProgressEmpty.

Definition call_pipeline (task model : string)
  : M (string -> result (list (gmap string string))) :=
  emit (EvPipeline task model) ;;;
  lift (pipeline E task model).

Definition generate_text_from_image (url : string) : M string :=
  image_to_text <- call_pipeline "image-to-text" "nlpconnect/vit-gpt2-image-captioning" ;;
  candidates <- (emit (EvImageToText url) ;;; lift (image_to_text url)) ;;
  first <- list_index candidates 0 ;;
  generated_text <- dict_get first "generated_text" ;;
  print ("IMAGE INPUT: " +:+ url) ;;;
  print ("GENERATED TEXT OUTPUT: " +:+ generated_text) ;;;
  ret generated_text.

(** [ChatOpenAI(model_name=..., temperature=...)] *)
Definition ChatOpenAI (model_name : string) (temperature : Z) : M ChatModel :=
  emit (EvChatOpenAI model_name temperature) ;;;
  lift (validate_environment E (environ E)) ;;;
  ret {| model_name := model_name; temperature := temperature |}.

(** [chain.predict] with keyword arguments: format the prompt, then one
    request. *)
Definition LLMChain_predict (chain : LLMChain) (kwargs : gmap string string)
  : M string :=
  text <- lift (str_format (template (prompt chain)) kwargs) ;;
  emit (EvPredict (llm chain) text) ;;;
  lift (chat_completion E (llm chain) text).

Definition generate_story_from_text (scenario : string) : M string :=
  let prompt_template := template_prefix +:+ scenario +:+ template_suffix in
  let prompt := {| template := prompt_template; input_variables := ["scenario"] |} in
  llm <- ChatOpenAI "gpt-3.5-turbo" 1 ;;
  let story_llm := {| llm := llm; prompt := prompt; verbose := true |} in
  generated_story <- LLMChain_predict story_llm {[ "scenario" := scenario ]} ;;
  print ("TEXT INPUT: " +:+ scenario) ;;;
  print ("GENERATED STORY OUTPUT: " +:+ generated_story) ;;;
  ret generated_story.

Definition post (url : string) (headers json : gmap string string) : M Response :=
  emit (EvPost url headers json) ;;;
  lift (requests_post E url headers json).

(** The body has no [return]: the call evaluates to [None]. *)
Definition generate_speech_from_text (message : string) : M (option bytes) :=
  let headers : gmap string string :=
    {[ "Authorization" := "Bearer " +:+ str_of_optional (HUGGINGFACE_API_TOKEN E) ]} in
  let payloads : gmap string string := {[ "inputs" := message ]} in
  response <- post API_URL headers payloads ;;
  open_wb "generated_audio.flac" ;;;
  file_write "generated_audio.flac" (content response) ;;;
  ret None.

Definition main : M unit :=
  st (StSetPageConfig "Image to audio story" "img/webworks87-favicon-light.png" "wide") ;;;
  st (StMarkdown (css_code E) true) ;;;
  st (StWithin "sidebar" (StImage "img/logo.jpg" None false)) ;;;
  st (StWithin "sidebar" (StWrite "---")) ;;;
  st (StWithin "sidebar" (StWrite "App created by Tech DareDevils")) ;;;
  st (StHeader "Generate an audio story from an image") ;;;
  st (StFileUploader "Please choose a file to upload" "jpg") ;;;
  match file_uploader E with
  | Some uploaded_file =>
      emit (EvPrintUploaded uploaded_file) ;;;
      let bytes_data := getvalue uploaded_file in
      open_wb (name uploaded_file) ;;;
      file_write (name uploaded_file) bytes_data ;;;
      st (StImage (name uploaded_file) (Some "Uploaded Image") true) ;;;
      progress_bar 100 ;;;
      scenario <- generate_text_from_image (name uploaded_file) ;;
      story <- generate_story_from_text scenario ;;
      generate_speech_from_text story ;;;
      st (StWithin "Generated scenario" (StWrite scenario)) ;;;
      st (StWithin "Generated story" (StWrite story)) ;;;
      st (StAudio "generated_audio.flac")
  | None => ret tt
  end.

End Program.

(** ** Views of a trace *)

Definition is_post (e : Event) : bool :=
  match e with
  | EvPost _ _ _ => true
  | _ => false
  end.

(** Requests that leave the machine: the language model and the speech
    service. *)
Definition is_network_call (e : Event) : bool :=
  match e with
  | EvPredict _ _ | EvPost _ _ _ => true
  | _ => false
  end.

(** The call each stage makes to the model it wraps. *)
Definition is_stage_call (e : Event) : bool :=
  match e with
  | EvImageToText _ | EvPredict _ _ | EvPost _ _ _ => true
  | _ => false
  end.

Definition posts (evs : list Event) : list Event := List.filter is_post evs.
Definition network_calls (evs : list Event) : list Event :=
  List.filter is_network_call evs.
Definition stage_calls (evs : list Event) : list Event :=
  List.filter is_stage_call evs.

Fixpoint no_braces (s : string) : bool :=
  match s with
  | EmptyString => true
  | String c s' => negb (is_brace c) && no_braces s'
  end.

(** The model [ChatOpenAI("gpt-3.5-turbo", temperature=1)] builds. *)
Definition gpt : ChatModel := {| model_name := "gpt-3.5-turbo"; temperature := 1 |}.

Definition bearer (E : Env) : gmap string string :=
  {[ "Authorization" := "Bearer " +:+ str_of_optional (HUGGINGFACE_API_TOKEN E) ]}.

(** ** Concrete environments, for running the model *)

Definition two_candidates : list (gmap string string) :=
  [ {[ "generated_text" := "a cat sitting on a windowsill" ]};
    {[ "generated_text" := "a dog on a sofa" ]} ].

(** A client constructor that insists on an API key in the environment. *)
Definition require_api_key (env : gmap string string) : result unit :=
  match env !! "OPENAI_API_KEY" with
  | Some _ => Ok tt
  | None => Raise (ValueError "Did not find openai_api_key")
  end.

Definition flac_bytes : bytes := list_byte_of_string "fLaC audio".

Definition cat_jpg : UploadedFile :=
  {| name := "cat.jpg"; getvalue := list_byte_of_string "JFIF" |}.

Definition demo_env : Env := {|
  environ := {[ "HUGGINGFACE_API_TOKEN" := "hf_demo"; "OPENAI_API_KEY" := "sk-demo" ]};
  css_code := "<style></style>";
  pipeline := fun _ _ => Ok (fun _ => Ok two_candidates);
  validate_environment := require_api_key;
  chat_completion := fun _ _ => Ok "The cat watched the rain and purred.";
  requests_post := fun _ _ _ =>
    Ok {| status_code := 200; response_headers := ∅; content := flac_bytes |};
  file_uploader := Some cat_jpg
|}.

Definition with_environ (env : gmap string string) (E : Env) : Env := {|
  environ := env;
  css_code := css_code E;
  pipeline := pipeline E;
  validate_environment := validate_environment E;
  chat_completion := chat_completion E;
  requests_post := requests_post E;
  file_uploader := file_uploader E
|}.

(** No speech-service token in the environment. *)
Definition no_token_env : Env :=
  with_environ {[ "OPENAI_API_KEY" := "sk-demo" ]} demo_env.

(** No language-model key in the environment. *)
Definition no_key_env : Env :=
  with_environ {[ "HUGGINGFACE_API_TOKEN" := "hf_demo" ]} demo_env.

(** The speech service answers 503 with a text body. *)
Definition unavailable : Response :=
  {| status_code := 503;
     response_headers := {[ "Content-Type" := "text/plain" ]};
     content := list_byte_of_string "Service Unavailable" |}.

Definition speech_down_env : Env := {|
  environ := environ demo_env;
  css_code := css_code demo_env;
  pipeline := pipeline demo_env;
  validate_environment := validate_environment demo_env;
  chat_completion := chat_completion demo_env;
  requests_post := fun _ _ _ => Ok unavailable;
  file_uploader := file_uploader demo_env
|}.

(** The captioning model loads but yields no candidate. *)
Definition no_candidate_env : Env := {|
  environ := environ demo_env;
  css_code := css_code demo_env;
  pipeline := fun _ _ => Ok (fun _ => Ok []);
  validate_environment := validate_environment demo_env;
  chat_completion := chat_completion demo_env;
  requests_post := requests_post demo_env;
  file_uploader := file_uploader demo_env
|}.

Definition fresh_world : World := {| log := []; files := ∅ |}.

(** A world left behind by an earlier run. *)
Definition used_world : World :=
  {| log := [];
     files := {[ "generated_audio.flac" := list_byte_of_string "older, longer audio" ]} |}.

(** The language model answers at length, with blanks around the text. *)
Definition rambling : string :=
  "  One two three four five six seven eight nine ten eleven twelve thirteen fourteen fifteen sixteen seventeen eighteen nineteen twenty twenty-one.  ".

Definition rambling_env : Env := {|
  environ := environ demo_env;
  css_code := css_code demo_env;
  pipeline := pipeline demo_env;
  validate_environment := validate_environment demo_env;
  chat_completion := fun _ _ => Ok rambling;
  requests_post := requests_post demo_env;
  file_uploader := file_uploader demo_env
|}.

(** The captioning model cannot be loaded. *)
Definition no_model_env : Env := {|
  environ := environ demo_env;
  css_code := css_code demo_env;
  pipeline := fun _ _ => Raise (External "model unavailable");
  validate_environment := validate_environment demo_env;
  chat_completion := chat_completion demo_env;
  requests_post := requests_post demo_env;
  file_uploader := file_uploader demo_env
|}.

(** Events that are no stage call. *)
Definition silent (evs : list Event) : Prop :=
  Forall (fun e => is_stage_call e = false) evs.

(** ** More views of a trace, and what a computation is confined to *)

(** Milliseconds spent in [time.sleep]. *)
Fixpoint slept (evs : list Event) : Z :=
  match evs with
  | [] => 0
  | EvSleep milliseconds :: evs' => milliseconds + slept evs'
  | _ :: evs' => slept evs'
  end.

(** The values the progress bar was set to. *)
Fixpoint progress_values (evs : list Event) : list Z :=
  match evs with
  | [] => []
  | EvSt (StProgress value _) :: evs' => value :: progress_values evs'
  | _ :: evs' => progress_values evs'
  end.

Definition is_print (e : Event) : bool :=
  match e with
  | EvPrint _ => true
  | _ => false
  end.

Definition prints (evs : list Event) : list Event := List.filter is_print evs.

Definition is_sleep (e : Event) : bool :=
  match e with
  | EvSleep _ => true
  | _ => false
  end.

(** Only the language-model request. *)
Definition is_predict (e : Event) : bool :=
  match e with
  | EvPredict _ _ => true
  | _ => false
  end.

(** [m] only adds events that satisfy [allowed] to the log, whatever its
    outcome, and every file outside [paths] is left as it was. *)
Definition confined {A} (allowed : Event -> bool) (paths : list string) (m : M A)
  : Prop :=
  forall w, exists evs,
    log (snd (m w)) = (evs ++ log w)%list
    /\ forallb allowed evs = true
    /\ forall path, ~ In path paths -> files (snd (m w)) !! path = files w !! path.

(** The kinds of events each stage adds. *)
Definition caption_event (e : Event) : bool :=
  match e with
  | EvPipeline _ _ | EvImageToText _ | EvPrint _ => true
  | _ => false
  end.

Definition tell_event (e : Event) : bool :=
  match e with
  | EvChatOpenAI _ _ | EvPredict _ _ | EvPrint _ => true
  | _ => false
  end.

Definition narrate_event (e : Event) : bool :=
  match e with
  | EvPost _ _ _ | EvOpenWb _ | EvFileWrite _ _ => true
  | _ => false
  end.

(** What [main] adds once the progress bar is gone: stage events and the
    widgets that show the results. *)
Definition after_bar_event (e : Event) : bool :=
  match e with
  | EvSleep _ | EvSt (StProgress _ _) | EvSt StProgressEmpty => false
  | _ => true
  end.

Definition with_pipeline
  (p : string -> string -> result (string -> result (list (gmap string string))))
  (E : Env) : Env := {|
  environ := environ E;
  css_code := css_code E;
  pipeline := p;
  validate_environment := validate_environment E;
  chat_completion := chat_completion E;
  requests_post := requests_post E;
  file_uploader := file_uploader E
|}.

Definition with_chat_completion (c : ChatModel -> string -> result string)
  (E : Env) : Env := {|
  environ := environ E;
  css_code := css_code E;
  pipeline := pipeline E;
  validate_environment := validate_environment E;
  chat_completion := c;
  requests_post := requests_post E;
  file_uploader := file_uploader E
|}.

Definition with_requests_post
  (p : string -> gmap string string -> gmap string string -> result Response)
  (E : Env) : Env := {|
  environ := environ E;
  css_code := css_code E;
  pipeline := pipeline E;
  validate_environment := validate_environment E;
  chat_completion := chat_completion E;
  requests_post := p;
  file_uploader := file_uploader E
|}.

Definition with_file_uploader (f : option UploadedFile) (E : Env) : Env := {|
  environ := environ E;
  css_code := css_code E;
  pipeline := pipeline E;
  validate_environment := validate_environment E;
  chat_completion := chat_completion E;
  requests_post := requests_post E;
  file_uploader := f
|}.

(** The first candidate record has no ["generated_text"], the second has. *)
Definition odd_candidates_env : Env :=
  with_pipeline
    (fun _ _ => Ok (fun _ => Ok [ {[ "label" := "cat" ]};
                                  {[ "generated_text" := "a dog on a sofa" ]} ]))
    demo_env.

(** The language-model request times out. *)
Definition llm_down_env : Env :=
  with_chat_completion (fun _ _ => Raise (External "timeout")) demo_env.

(** The speech-service request cannot connect. *)
Definition speech_unreachable_env : Env :=
  with_requests_post (fun _ _ _ => Raise (External "connection refused")) demo_env.

(** Nothing was uploaded on this run of the script. *)
Definition idle_env : Env := with_file_uploader None demo_env.

(** A world that already holds a file under the upload's name and an
    unrelated file. *)
Definition crowded_world : World :=
  {| log := [];
     files := {[ "cat.jpg" := list_byte_of_string "an older cat";
                 "notes.txt" := list_byte_of_string "keep me";
                 "generated_audio.flac" := list_byte_of_string "older, longer audio" ]} |}.

(** The program defines no exception class of its own: an
    [AuthenticationError] could only come out of a library. *)
Definition is_authentication_error (e : exn) : bool :=
  match e with
  | External what => String.eqb what "AuthenticationError"
  | _ => false
  end.

(** The widgets that show the results of a run. *)
Definition is_result_widget (e : Event) : bool :=
  match e with
  | EvSt (StAudio _) => true
  | EvSt (StWithin container _) =>
      String.eqb container "Generated scenario" || String.eqb container "Generated story"
  | _ => false
  end.

Definition result_widgets (evs : list Event) : list Event :=
  List.filter is_result_widget evs.

(** What the progress bar adds. *)
Definition bar_event (e : Event) : bool := negb (after_bar_event e).

(** ** Running the stages *)

Lemma select_trace_cons (p : Event -> bool) (e : Event) (l : list Event) :
  List.filter p (rev (e :: l)) =
  (List.filter p (rev l) ++ (if p e then [e] else []))%list.
Proof. cbn. rewrite List.filter_app. cbn. destruct (p e); reflexivity. Qed.

Lemma narrate_run E story w :
  generate_speech_from_text E story w =
  match requests_post E API_URL (bearer E) {[ "inputs" := story ]} with
  | Ok response =>
      (Ok None,
       {| log := EvFileWrite "generated_audio.flac" (content response)
                 :: EvOpenWb "generated_audio.flac"
                 :: EvPost API_URL (bearer E) {[ "inputs" := story ]} :: log w;
          files := <["generated_audio.flac" := content response]> (files w) |})
  | Raise e =>
      (Raise e,
       {| log := EvPost API_URL (bearer E) {[ "inputs" := story ]} :: log w;
          files := files w |})
  end.
Proof.
  unfold generate_speech_from_text, post, bind, emit, lift, bearer. cbn.
  destruct (requests_post E API_URL _ _) as [response|e]; cbn; [|reflexivity].
  unfold open_wb, file_write, ret. cbn.
  rewrite lookup_insert_eq, insert_insert_eq. reflexivity.
Qed.

Lemma caption_run E url w :
  generate_text_from_image E url w =
  let w1 := {| log := EvPipeline "image-to-text" "nlpconnect/vit-gpt2-image-captioning"
                      :: log w;
               files := files w |} in
  let w2 := {| log := EvImageToText url :: log w1; files := files w |} in
  match pipeline E "image-to-text" "nlpconnect/vit-gpt2-image-captioning" with
  | Raise e => (Raise e, w1)
  | Ok image_to_text =>
      match image_to_text url with
      | Raise e => (Raise e, w2)
      | Ok [] => (Raise (IndexError "list index out of range"), w2)
      | Ok (first :: _) =>
          match first !! "generated_text" with
          | None => (Raise (KeyError "generated_text"), w2)
          | Some generated_text =>
              (Ok generated_text,
               {| log := EvPrint ("GENERATED TEXT OUTPUT: " +:+ generated_text)
                         :: EvPrint ("IMAGE INPUT: " +:+ url) :: log w2;
                  files := files w |})
          end
      end
  end.
Proof.
  unfold generate_text_from_image, call_pipeline, bind, emit, lift. cbn.
  destruct (pipeline E _ _) as [image_to_text|e]; cbn; [|reflexivity].
  destruct (image_to_text url) as [[|first rest]|e]; cbn; try reflexivity.
  unfold dict_get. destruct (first !! "generated_text"); reflexivity.
Qed.

Lemma tell_run E scenario w :
  generate_story_from_text E scenario w =
  let w1 := {| log := EvChatOpenAI "gpt-3.5-turbo" 1 :: log w; files := files w |} in
  match validate_environment E (environ E) with
  | Raise e => (Raise e, w1)
  | Ok _ =>
      match str_format (template_prefix +:+ scenario +:+ template_suffix)
                       {[ "scenario" := scenario ]} with
      | Raise e => (Raise e, w1)
      | Ok text =>
          let w2 := {| log := EvPredict gpt text :: log w1; files := files w |} in
          match chat_completion E gpt text with
          | Raise e => (Raise e, w2)
          | Ok generated_story =>
              (Ok generated_story,
               {| log := EvPrint ("GENERATED STORY OUTPUT: " +:+ generated_story)
                         :: EvPrint ("TEXT INPUT: " +:+ scenario) :: log w2;
                  files := files w |})
          end
      end
  end.
Proof.
  unfold generate_story_from_text, ChatOpenAI, LLMChain_predict, bind, emit, lift, ret, print.
  cbn [llm prompt template log files].
  destruct (validate_environment E (environ E)) as [u|e]; [|reflexivity].
  destruct (str_format _ _) as [text|e]; [|reflexivity].
  fold gpt.
  destruct (chat_completion E gpt text) as [story|e]; reflexivity.
Qed.

Lemma format_text_no_braces kwargs (a rest : string) :
  no_braces a = true ->
  format_from kwargs InText (a +:+ rest) =
  result_map (String.append a) (format_from kwargs InText rest).
Proof.
  induction a as [|c a IH]; intros Ha.
  - change ("" +:+ rest) with rest.
    destruct (format_from kwargs InText rest); reflexivity.
  - cbn in Ha. apply andb_prop in Ha as [Hc Ha].
    unfold is_brace in Hc. apply negb_true_iff, orb_false_iff in Hc as [Ho Hc].
    change (String c a +:+ rest) with (String c (a +:+ rest)).
    cbn [format_from]. rewrite Ho, Hc, (IH Ha).
    destruct (format_from kwargs InText rest); reflexivity.
Qed.

Lemma format_scenario_no_braces scenario :
  no_braces scenario = true ->
  str_format (template_prefix +:+ scenario +:+ template_suffix)
             {[ "scenario" := scenario ]}
  = Ok (template_prefix +:+ scenario +:+ template_suffix).
Proof.
  intros H. unfold str_format.
  rewrite format_text_no_braces by reflexivity.
  rewrite format_text_no_braces by exact H.
  reflexivity.
Qed.

(** The value a stage returns does not depend on the world it starts in:
    only the services decide it. *)
Lemma caption_result_any_world E url w w' :
  fst (generate_text_from_image E url w) = fst (generate_text_from_image E url w').
Proof.
  rewrite !caption_run. cbn zeta.
  destruct (pipeline E _ _) as [image_to_text|e]; [|reflexivity].
  destruct (image_to_text url) as [[|first rest]|e]; try reflexivity.
  destruct (first !! "generated_text"); reflexivity.
Qed.

(** ** The captioner *)

(** C5. When the captioning model loads and answers with a non-empty list
    of candidate records, [generate_text_from_image] returns the
    ["generated_text"] field of the first record, whatever the other
    candidates are, after one call of the model on the image location. *)
Theorem caption_returns_first_candidate E url w image_to_text first rest text :
  pipeline E "image-to-text" "nlpconnect/vit-gpt2-image-captioning" = Ok image_to_text ->
  image_to_text url = Ok (first :: rest) ->
  first !! "generated_text" = Some text ->
  fst (generate_text_from_image E url w) = Ok text.
Proof.
  intros Hload Hrun Hfield. rewrite caption_run. cbn zeta.
  rewrite Hload, Hrun, Hfield. reflexivity.
Qed.

Lemma caption_returns_first_candidate_witness :
  fst (generate_text_from_image demo_env "cat.jpg" fresh_world)
  = Ok "a cat sitting on a windowsill".
Proof.
  apply (caption_returns_first_candidate demo_env "cat.jpg" fresh_world
           (fun _ => Ok two_candidates)
           {[ "generated_text" := "a cat sitting on a windowsill" ]}
           [ {[ "generated_text" := "a dog on a sofa" ]} ]);
    reflexivity.
Defined.

(** C10. On an empty candidate list the first-candidate access raises
    [IndexError] and no scenario is returned; conversely every scenario
    the captioner returns is the ["generated_text"] of the head of a
    non-empty candidate list the model produced for that image. *)
Theorem caption_needs_a_candidate E url w :
  (forall image_to_text,
      pipeline E "image-to-text" "nlpconnect/vit-gpt2-image-captioning" = Ok image_to_text ->
      image_to_text url = Ok [] ->
      fst (generate_text_from_image E url w)
      = Raise (IndexError "list index out of range"))
  /\ (forall scenario,
         fst (generate_text_from_image E url w) = Ok scenario ->
         exists image_to_text first rest,
           pipeline E "image-to-text" "nlpconnect/vit-gpt2-image-captioning"
           = Ok image_to_text
           /\ image_to_text url = Ok (first :: rest)
           /\ first !! "generated_text" = Some scenario).
Proof.
  rewrite caption_run. cbn zeta. split.
  - intros image_to_text Hload Hrun. rewrite Hload, Hrun. reflexivity.
  - intros scenario.
    destruct (pipeline E _ _) as [image_to_text|e]; [|discriminate].
    destruct (image_to_text url) as [[|first rest]|e] eqn:Hrun;
      [discriminate| |discriminate].
    destruct (first !! "generated_text") as [text|] eqn:Hfield; [|discriminate].
    cbn [fst]. intros [= <-]. exists image_to_text, first, rest. auto.
Qed.

Lemma caption_needs_a_candidate_witness :
  fst (generate_text_from_image no_candidate_env "cat.jpg" fresh_world)
  = Raise (IndexError "list index out of range").
Proof.
  apply (proj1 (caption_needs_a_candidate no_candidate_env "cat.jpg" fresh_world)
           (fun _ => Ok []));
    reflexivity.
Defined.

(** ** The narrator *)

Lemma narrate_issues_one_post_trace E story w :
  posts (trace (snd (generate_speech_from_text E story w)))
  = (posts (trace w) ++ [EvPost API_URL (bearer E) {[ "inputs" := story ]}])%list.
Proof.
  rewrite narrate_run. unfold posts, trace.
  destruct (requests_post E API_URL _ _) as [response|e]; cbn [snd log];
    rewrite ?select_trace_cons; cbn [is_post]; rewrite ?app_nil_r; reflexivity.
Qed.

(** C3. Whatever the story and whatever the service answers (a response
    or an exception), [generate_speech_from_text] adds exactly one POST to
    the trace: to [API_URL], with the header [Authorization: Bearer ...]
    built from the token, and with a JSON object whose only key is
    ["inputs"], bound to the story. *)
Theorem narrate_issues_one_post E story w :
  posts (trace (snd (generate_speech_from_text E story w)))
  = (posts (trace w) ++ [EvPost API_URL (bearer E) {[ "inputs" := story ]}])%list
  /\ bearer E !! "Authorization"
     = Some ("Bearer " +:+ str_of_optional (HUGGINGFACE_API_TOKEN E))
  /\ dom ({[ "inputs" := story ]} : gmap string string) = {[ "inputs" ]}
  /\ ({[ "inputs" := story ]} : gmap string string) !! "inputs" = Some story.
Proof.
  split; [|split; [|split]].
  - apply narrate_issues_one_post_trace.
  - apply lookup_singleton_eq.
  - apply dom_singleton_L.
  - apply lookup_singleton_eq.
Qed.

(** C4. For every response the speech service returns, whatever its
    status code and headers, [generate_speech_from_text] ends normally and
    the file ["generated_audio.flac"] then holds exactly the response
    body, replacing whatever it held; no other file changes. *)
Theorem narrate_writes_body_unchecked E story w response :
  requests_post E API_URL (bearer E) {[ "inputs" := story ]} = Ok response ->
  fst (generate_speech_from_text E story w) = Ok None
  /\ files (snd (generate_speech_from_text E story w))
     = <["generated_audio.flac" := content response]> (files w).
Proof.
  intros Hpost. rewrite narrate_run, Hpost. split; reflexivity.
Qed.

Lemma narrate_writes_body_unchecked_witness :
  status_code unavailable = 503
  /\ files (snd (generate_speech_from_text speech_down_env "Once upon a time." used_world))
     !! "generated_audio.flac"
     = Some (list_byte_of_string "Service Unavailable").
Proof.
  split; [reflexivity|].
  rewrite (proj2 (narrate_writes_body_unchecked speech_down_env "Once upon a time."
                    used_world unavailable eq_refl)).
  apply lookup_insert_eq.
Defined.

(** The narrator never hands bytes back: its value is [None] when the
    request returns, and the request's exception otherwise. *)
Lemma narrate_result E story w :
  fst (generate_speech_from_text E story w)
  = match requests_post E API_URL (bearer E) {[ "inputs" := story ]} with
    | Ok _ => Ok None
    | Raise e => Raise e
    end.
Proof.
  rewrite narrate_run. destruct (requests_post E API_URL _ _); reflexivity.
Qed.

(** C8 (the code departs from its docstring).  On the story
    ["Once upon a time."], with a speech service that answers 200 and ten
    bytes of audio, [generate_speech_from_text] stores the bytes in
    ["generated_audio.flac"] and returns [None], not the audio that its
    docstring announces as its return value. *)
Theorem narrate_returns_none_not_audio :
  requests_post demo_env API_URL (bearer demo_env) {[ "inputs" := "Once upon a time." ]}
  = Ok {| status_code := 200; response_headers := ∅; content := flac_bytes |}
  /\ fst (generate_speech_from_text demo_env "Once upon a time." fresh_world) = Ok None
  /\ files (snd (generate_speech_from_text demo_env "Once upon a time." fresh_world))
     !! "generated_audio.flac" = Some flac_bytes.
Proof.
  split; [reflexivity|]. rewrite narrate_run. cbn. split; [reflexivity|].
  apply lookup_insert_eq.
Qed.

(** C6, as the code has it.  Without a token in the environment the
    narrator does not fail on that account: it issues its one POST all the
    same, with the header [Authorization: Bearer None], and its outcome is
    that of the request: when the service answers, the body is written to
    ["generated_audio.flac"] and the narrator ends normally with [None];
    when the request raises, the narrator raises the same exception and
    no file has changed. *)
Theorem narrate_missing_token_still_posts E story w :
  HUGGINGFACE_API_TOKEN E = None ->
  posts (trace (snd (generate_speech_from_text E story w)))
  = (posts (trace w)
     ++ [EvPost API_URL {[ "Authorization" := "Bearer None" ]} {[ "inputs" := story ]}])%list
  /\ fst (generate_speech_from_text E story w)
     = match requests_post E API_URL {[ "Authorization" := "Bearer None" ]}
                           {[ "inputs" := story ]} with
       | Ok _ => Ok None
       | Raise e => Raise e
       end
  /\ files (snd (generate_speech_from_text E story w))
     = match requests_post E API_URL {[ "Authorization" := "Bearer None" ]}
                           {[ "inputs" := story ]} with
       | Ok response => <["generated_audio.flac" := content response]> (files w)
       | Raise _ => files w
       end.
Proof.
  intros Htoken.
  assert (Hbearer : bearer E = {[ "Authorization" := "Bearer None" ]}).
  { unfold bearer. rewrite Htoken. reflexivity. }
  rewrite <- Hbearer. split; [|split].
  - apply narrate_issues_one_post_trace.
  - apply narrate_result.
  - rewrite narrate_run. destruct (requests_post E API_URL _ _); reflexivity.
Qed.

Lemma narrate_missing_token_still_posts_witness :
  posts (trace (snd (generate_speech_from_text no_token_env "Once upon a time." used_world)))
  = [EvPost API_URL {[ "Authorization" := "Bearer None" ]}
            {[ "inputs" := "Once upon a time." ]}]
  /\ fst (generate_speech_from_text no_token_env "Once upon a time." used_world) = Ok None
  /\ files (snd (generate_speech_from_text no_token_env "Once upon a time." used_world))
     = <["generated_audio.flac" := flac_bytes]> (files used_world).
Proof.
  apply (narrate_missing_token_still_posts no_token_env "Once upon a time."
           used_world eq_refl).
Defined.

(** C6, as the spec states it, fails: with no token in the environment
    the narrator ends normally, having sent the POST. *)
Lemma narrate_missing_token_counterexample :
  HUGGINGFACE_API_TOKEN no_token_env = None
  /\ fst (generate_speech_from_text no_token_env "Once upon a time." fresh_world) = Ok None
  /\ (forall e, fst (generate_speech_from_text no_token_env "Once upon a time." fresh_world)
                <> Raise e)
  /\ In (EvPost API_URL {[ "Authorization" := "Bearer None" ]}
                {[ "inputs" := "Once upon a time." ]})
        (trace (snd (generate_speech_from_text no_token_env "Once upon a time." fresh_world))).
Proof.
  rewrite narrate_run. cbn.
  split; [reflexivity|]. split; [reflexivity|]. split; [discriminate|].
  left. reflexivity.
Qed.

(** ** The storyteller *)

Lemma network_calls_trace_cons (e : Event) (l : list Event) :
  network_calls (rev (e :: l))
  = (network_calls (rev l) ++ (if is_network_call e then [e] else []))%list.
Proof. apply select_trace_cons. Qed.


(** C2 (the code departs from the claim).  The scenario is put into the
    text by the f-string and the result is then used as a format string
    with [scenario] as keyword argument, so braces in the scenario are read
    as markup.  For the scenario ["{scenario} twice"] the request carries
    ["{scenario} twice twice"] in the template's slot: the scenario is not
    embedded once as it stands. *)
Theorem tell_formats_scenario_twice :
  network_calls (trace (snd (generate_story_from_text demo_env "{scenario} twice" fresh_world)))
  = [EvPredict gpt (template_prefix +:+ "{scenario} twice twice" +:+ template_suffix)]
  /\ template_prefix +:+ "{scenario} twice twice" +:+ template_suffix
     <> template_prefix +:+ "{scenario} twice" +:+ template_suffix.
Proof.
  split.
  - rewrite tell_run. vm_compute. reflexivity.
  - vm_compute. discriminate.
Qed.

(** The same slip on a scenario that names another field: no request is
    made at all; formatting raises [KeyError] (a library that checks the
    chain's input keys first reports the missing key as a [ValueError]). *)
Lemma tell_raises_on_unknown_field :
  fst (generate_story_from_text demo_env "a {cat} on a mat" fresh_world)
  = Raise (KeyError "cat")
  /\ network_calls (trace (snd (generate_story_from_text demo_env "a {cat} on a mat"
                                  fresh_world))) = [].
Proof. rewrite tell_run. vm_compute. split; reflexivity. Qed.

(** Nor when a brace of the scenario opens nothing. *)
Lemma tell_raises_on_single_brace :
  fst (generate_story_from_text demo_env "a cat }" fresh_world)
  = Raise (ValueError "Single '}' encountered in format string").
Proof. rewrite tell_run. vm_compute. reflexivity. Qed.

(** C7, as the code has it.  The storyteller makes no check of the API
    key itself.  With the key absent and a scenario without braces, what
    happens is decided by the [ChatOpenAI] constructor: when it rejects
    the environment, [generate_story_from_text] fails with the
    constructor's own exception and all it has done is to call the
    constructor, so no request to the language model is in the trace; the
    request, on the template filled with the scenario, is made only when
    the constructor accepts the environment. *)
Theorem tell_missing_key_left_to_constructor E scenario w :
  no_braces scenario = true ->
  OPENAI_API_KEY E = None ->
  match validate_environment E (environ E) with
  | Raise e =>
      fst (generate_story_from_text E scenario w) = Raise e
      /\ trace (snd (generate_story_from_text E scenario w))
         = (trace w ++ [EvChatOpenAI "gpt-3.5-turbo" 1])%list
      /\ network_calls (trace (snd (generate_story_from_text E scenario w)))
         = network_calls (trace w)
  | Ok _ =>
      network_calls (trace (snd (generate_story_from_text E scenario w)))
      = (network_calls (trace w)
         ++ [EvPredict gpt (template_prefix +:+ scenario +:+ template_suffix)])%list
  end.
Proof.
  intros Hscenario _. rewrite tell_run. cbn zeta.
  destruct (validate_environment E (environ E)) as [[]|e].
  - rewrite (format_scenario_no_braces _ Hscenario). unfold trace.
    destruct (chat_completion E gpt _); cbn [snd log];
      rewrite ?network_calls_trace_cons; cbn [is_network_call];
      rewrite ?app_nil_r; reflexivity.
  - cbn [fst snd]. split; [reflexivity|]. split; [reflexivity|].
    unfold trace. cbn [log]. rewrite network_calls_trace_cons. cbn [is_network_call].
    apply app_nil_r.
Qed.

Lemma tell_missing_key_left_to_constructor_witness :
  fst (generate_story_from_text no_key_env "a cat" fresh_world)
  = Raise (ValueError "Did not find openai_api_key")
  /\ trace (snd (generate_story_from_text no_key_env "a cat" fresh_world))
     = (trace fresh_world ++ [EvChatOpenAI "gpt-3.5-turbo" 1])%list
  /\ network_calls (trace (snd (generate_story_from_text no_key_env "a cat" fresh_world)))
     = network_calls (trace fresh_world).
Proof.
  apply (tell_missing_key_left_to_constructor no_key_env "a cat" fresh_world
           eq_refl eq_refl).
Defined.

(** C7, as the spec states it, fails: with no key in the environment and
    a client constructor that rejects it, the exception that leaves the
    storyteller is the constructor's validation error, a [ValueError], and
    no [AuthenticationError]. *)
Lemma tell_missing_key_counterexample :
  OPENAI_API_KEY no_key_env = None
  /\ fst (generate_story_from_text no_key_env "a cat" fresh_world)
     = Raise (ValueError "Did not find openai_api_key")
  /\ is_authentication_error (ValueError "Did not find openai_api_key") = false
  /\ (forall e, fst (generate_story_from_text no_key_env "a cat" fresh_world) = Raise e ->
                is_authentication_error e = false).
Proof.
  rewrite tell_run. vm_compute.
  split; [reflexivity|]. split; [reflexivity|]. split; [reflexivity|].
  intros e [= <-]. reflexivity.
Qed.

(** C9. What [generate_story_from_text] returns is the completion of the
    language model, as it came: when the client is built and the prompt is
    formatted, the completion is returned whatever its length and its
    blanks; and any story returned is the completion the model gave for
    the formatted prompt. *)
Theorem tell_returns_completion E scenario w :
  (forall text completion,
      validate_environment E (environ E) = Ok tt ->
      str_format (template_prefix +:+ scenario +:+ template_suffix)
                 {[ "scenario" := scenario ]} = Ok text ->
      chat_completion E gpt text = Ok completion ->
      fst (generate_story_from_text E scenario w) = Ok completion)
  /\ (forall story,
         fst (generate_story_from_text E scenario w) = Ok story ->
         exists text,
           str_format (template_prefix +:+ scenario +:+ template_suffix)
                      {[ "scenario" := scenario ]} = Ok text
           /\ chat_completion E gpt text = Ok story).
Proof.
  rewrite tell_run. cbn zeta. split.
  - intros text completion Hkey Hformat Hmodel.
    rewrite Hkey, Hformat, Hmodel. reflexivity.
  - intros story.
    destruct (validate_environment E (environ E)); [|discriminate].
    destruct (str_format _ _) as [text|]; [|discriminate].
    destruct (chat_completion E gpt text) as [completion|] eqn:Hmodel; [|discriminate].
    cbn [fst]. intros [= <-]. exists text. auto.
Qed.

Lemma tell_returns_completion_witness :
  fst (generate_story_from_text rambling_env "a cat" fresh_world) = Ok rambling.
Proof.
  apply (proj1 (tell_returns_completion rambling_env "a cat" fresh_world)
           (template_prefix +:+ "a cat" +:+ template_suffix) rambling).
  - reflexivity.
  - vm_compute. reflexivity.
  - reflexivity.
Defined.

(** ** The orchestrator *)

Lemma silent_select (p : Event -> bool) (evs l : list Event) :
  (forall e, p e = true -> is_stage_call e = true) ->
  silent evs ->
  List.filter p (rev (evs ++ l)) = List.filter p (rev l).
Proof.
  intros Hp Hevs. rewrite rev_app_distr, List.filter_app.
  assert (Hnone : List.filter p (rev evs) = []).
  { induction Hevs as [|e evs He _ IH]; [reflexivity|].
    cbn. rewrite List.filter_app, IH. cbn.
    destruct (p e) eqn:Hpe; [|reflexivity].
    apply Hp in Hpe. congruence. }
  rewrite Hnone. apply app_nil_r.
Qed.

Lemma for_each_silent {A} (l : list A) (body : A -> M unit) :
  (forall x w, exists evs,
      body x w = (Ok tt, {| log := evs ++ log w; files := files w |}) /\ silent evs) ->
  forall w, exists evs,
    for_each l body w = (Ok tt, {| log := evs ++ log w; files := files w |}) /\ silent evs.
Proof.
  intros Hbody. induction l as [|x l IH]; intros w.
  - exists []. split; [destruct w; reflexivity|constructor].
  - destruct (Hbody x w) as (evs1 & Hrun1 & Hs1).
    destruct (IH {| log := evs1 ++ log w; files := files w |}) as (evs2 & Hrun2 & Hs2).
    exists (evs2 ++ evs1)%list. split.
    + cbn [for_each]. unfold bind. rewrite Hrun1, Hrun2. cbn [log files].
      rewrite app_assoc. reflexivity.
    + apply Forall_app. split; assumption.
Qed.

Lemma progress_bar_silent amount_of_time w :
  exists evs,
    progress_bar amount_of_time w
    = (Ok tt, {| log := evs ++ log w; files := files w |}) /\ silent evs.
Proof.
  unfold progress_bar.
  set (body := fun percent_complete : Z => _).
  assert (Hbody : forall x w, exists evs,
             body x w = (Ok tt, {| log := evs ++ log w; files := files w |})
             /\ silent evs).
  { intros x w1. eexists [_; _]. split; [reflexivity|].
    repeat constructor. }
  set (w1 := {| log := EvSt (StProgress 0 "Please wait, Generative models hard at work")
                       :: log w; files := files w |}).
  destruct (for_each_silent (range amount_of_time) body Hbody w1) as (evs & Hrun & Hs).
  exists ([EvSt StProgressEmpty; EvSleep 1000] ++ evs
          ++ [EvSt (StProgress 0 "Please wait, Generative models hard at work")])%list.
  split.
  - unfold bind at 1. cbn [st emit]. fold w1.
    unfold bind at 1. rewrite Hrun. cbn. rewrite <- app_assoc. reflexivity.
  - apply Forall_app. split; [repeat constructor|].
    apply Forall_app. split; [assumption|repeat constructor].
Qed.

Lemma main_run E uploaded_file w :
  file_uploader E = Some uploaded_file ->
  exists evs,
    silent evs
    /\ main E w
       = (scenario <- generate_text_from_image E (name uploaded_file) ;;
          story <- generate_story_from_text E scenario ;;
          generate_speech_from_text E story ;;;
          st (StWithin "Generated scenario" (StWrite scenario)) ;;;
          st (StWithin "Generated story" (StWrite story)) ;;;
          st (StAudio "generated_audio.flac"))
           {| log := evs ++ log w;
              files := <[name uploaded_file := getvalue uploaded_file]> (files w) |}.
Proof.
  intros Hfile. unfold main. rewrite Hfile.
  cbn [bind st emit open_wb file_write log files].
  rewrite lookup_insert_eq, insert_insert_eq. cbn [default id app].
  unfold bind at 1.
  match goal with
  | |- context [progress_bar 100 ?w1] =>
      destruct (progress_bar_silent 100 w1) as (evs & Hrun & Hs); rewrite Hrun
  end.
  cbn [log files].
  eexists (evs ++ [_; _; _; _; _; _; _; _; _; _; _])%list. split; cycle 1.
  - rewrite <- app_assoc. reflexivity.
  - apply Forall_app. split; [assumption|repeat constructor].
Qed.

Lemma caption_ok_run E url w0 scenario :
  fst (generate_text_from_image E url w0) = Ok scenario ->
  forall w,
    generate_text_from_image E url w
    = (Ok scenario,
       {| log := EvPrint ("GENERATED TEXT OUTPUT: " +:+ scenario)
                 :: EvPrint ("IMAGE INPUT: " +:+ url)
                 :: EvImageToText url
                 :: EvPipeline "image-to-text" "nlpconnect/vit-gpt2-image-captioning"
                 :: log w;
          files := files w |}).
Proof.
  intros Hok w. rewrite caption_run in Hok. rewrite caption_run. cbn zeta in *.
  destruct (pipeline E _ _) as [image_to_text|]; [|discriminate].
  destruct (image_to_text url) as [[|first rest]|]; [discriminate| |discriminate].
  destruct (first !! "generated_text"); [|discriminate].
  cbn [fst] in Hok. injection Hok as ->. reflexivity.
Qed.

Lemma caption_fail_run E url w0 e :
  fst (generate_text_from_image E url w0) = Raise e ->
  forall w,
    fst (generate_text_from_image E url w) = Raise e
    /\ network_calls (trace (snd (generate_text_from_image E url w)))
       = network_calls (trace w).
Proof.
  intros Hfail w. rewrite (caption_result_any_world E url w w0). split; [exact Hfail|].
  rewrite caption_run in Hfail. rewrite caption_run. cbn zeta in *. unfold trace.
  destruct (pipeline E _ _) as [image_to_text|];
    [destruct (image_to_text url) as [[|first rest]|];
     [| destruct (first !! "generated_text"); [discriminate|] |] |];
    cbn [snd log]; rewrite !network_calls_trace_cons; cbn [is_network_call];
    rewrite !app_nil_r; reflexivity.
Qed.

Lemma tell_ok_run E scenario w0 story :
  fst (generate_story_from_text E scenario w0) = Ok story ->
  exists text,
    str_format (template_prefix +:+ scenario +:+ template_suffix)
               {[ "scenario" := scenario ]} = Ok text
    /\ forall w,
        generate_story_from_text E scenario w
        = (Ok story,
           {| log := EvPrint ("GENERATED STORY OUTPUT: " +:+ story)
                     :: EvPrint ("TEXT INPUT: " +:+ scenario)
                     :: EvPredict gpt text
                     :: EvChatOpenAI "gpt-3.5-turbo" 1
                     :: log w;
              files := files w |}).
Proof.
  intros Hok. rewrite tell_run in Hok. cbn zeta in Hok.
  destruct (validate_environment E (environ E)) eqn:Hkey; [|discriminate].
  destruct (str_format _ _) as [text|] eqn:Hformat; [|discriminate].
  destruct (chat_completion E gpt text) eqn:Hmodel; [|discriminate].
  cbn [fst] in Hok. injection Hok as ->.
  exists text. split; [reflexivity|]. intros w.
  rewrite tell_run. cbn zeta. rewrite Hkey, Hformat, Hmodel. reflexivity.
Qed.

(** C1. With a file uploaded, [main] calls the three stages in order and
    hands each the value the one before returned: when the captioner
    returns a scenario and the storyteller, given that scenario, returns a
    story, the stage calls [main] adds to the trace are the captioning
    model on the uploaded file's name, then the language model on the
    prompt formatted from that scenario, then the POST whose ["inputs"] is
    that story, and nothing else.  When the captioner fails, [main] fails
    with the same exception and no request to the language model or to the
    speech service is in the trace. *)
Theorem main_runs_stages_in_order E uploaded_file w :
  file_uploader E = Some uploaded_file ->
  (forall scenario story,
      fst (generate_text_from_image E (name uploaded_file) w) = Ok scenario ->
      fst (generate_story_from_text E scenario w) = Ok story ->
      exists text,
        str_format (template_prefix +:+ scenario +:+ template_suffix)
                   {[ "scenario" := scenario ]} = Ok text
        /\ stage_calls (trace (snd (main E w)))
           = (stage_calls (trace w)
              ++ [EvImageToText (name uploaded_file);
                  EvPredict gpt text;
                  EvPost API_URL (bearer E) {[ "inputs" := story ]}])%list)
  /\ (forall e,
         fst (generate_text_from_image E (name uploaded_file) w) = Raise e ->
         fst (main E w) = Raise e
         /\ network_calls (trace (snd (main E w))) = network_calls (trace w)).
Proof.
  intros Hfile. destruct (main_run E uploaded_file w Hfile) as (evs & Hs & ->).
  split.
  - intros scenario story Hcaption Htell.
    destruct (tell_ok_run _ _ _ _ Htell) as (text & Hformat & Hrun).
    exists text. split; [exact Hformat|].
    unfold bind at 1. rewrite (caption_ok_run _ _ _ _ Hcaption).
    unfold bind at 1. rewrite Hrun.
    unfold bind at 1. rewrite narrate_run.
    unfold stage_calls, trace.
    destruct (requests_post E API_URL _ _) as [response|err];
      cbn [bind st emit snd log];
      rewrite !select_trace_cons; cbn [is_stage_call];
      rewrite (silent_select is_stage_call evs (log w) (fun e H => H) Hs);
      rewrite !app_nil_r, <- !app_assoc; reflexivity.
  - intros e Hfail.
    set (w1 := {| log := evs ++ log w;
                  files := <[name uploaded_file := getvalue uploaded_file]> (files w) |}).
    destruct (caption_fail_run _ _ _ _ Hfail w1) as [Hresult Hquiet].
    destruct (generate_text_from_image E (name uploaded_file) w1)
      as [[scenario|e'] w'] eqn:Hcaption; [discriminate|].
    cbn [fst snd] in Hresult, Hquiet. injection Hresult as ->.
    split; unfold bind at 1; rewrite Hcaption; [reflexivity|].
    cbn [snd]. rewrite Hquiet. unfold trace, w1. cbn [log].
    apply silent_select; [|exact Hs].
    intros [] H; try discriminate; reflexivity.
Qed.

Lemma main_runs_stages_in_order_witness :
  stage_calls (trace (snd (main demo_env fresh_world)))
  = [EvImageToText "cat.jpg";
     EvPredict gpt (template_prefix +:+ "a cat sitting on a windowsill" +:+ template_suffix);
     EvPost API_URL (bearer demo_env)
            {[ "inputs" := "The cat watched the rain and purred." ]}]
  /\ network_calls (trace (snd (main no_model_env fresh_world))) = [].
Proof.
  split.
  - destruct (proj1 (main_runs_stages_in_order demo_env cat_jpg fresh_world eq_refl)
                "a cat sitting on a windowsill" "The cat watched the rain and purred."
                eq_refl eq_refl) as (text & Hformat & Hcalls).
    rewrite Hcalls. vm_compute in Hformat. injection Hformat as <-. reflexivity.
  - apply (proj2 (main_runs_stages_in_order no_model_env cat_jpg fresh_world eq_refl)
             (External "model unavailable") eq_refl).
Defined.

(** ** The progress bar *)

Lemma slept_app (a b : list Event) : slept (a ++ b) = slept a + slept b.
Proof.
  induction a as [|e a IH]; [reflexivity|].
  destruct e; cbn [slept app]; rewrite IH; lia.
Qed.

Lemma progress_values_app (a b : list Event) :
  progress_values (a ++ b) = (progress_values a ++ progress_values b)%list.
Proof.
  induction a as [|e a IH]; [reflexivity|].
  destruct e as [| |[]| | | | | | | |]; cbn [progress_values app]; rewrite IH; reflexivity.
Qed.

Lemma progress_loop_run (text : string) (l : list Z) :
  forall w, exists evs,
    for_each l (fun percent_complete =>
                  time_sleep 40 ;;; st (StProgress (percent_complete + 1) text)) w
    = (Ok tt, {| log := evs ++ log w; files := files w |})
    /\ silent evs
    /\ slept (rev evs) = 40 * Z.of_nat (length l)
    /\ progress_values (rev evs) = map (fun percent_complete => percent_complete + 1) l.
Proof.
  induction l as [|x l IH]; intros w.
  - exists []. split; [destruct w; reflexivity|]. repeat split. constructor.
  - destruct (IH {| log := EvSt (StProgress (x + 1) text) :: EvSleep 40 :: log w;
                    files := files w |}) as (evs & Hrun & Hs & Hslept & Hvalues).
    exists (evs ++ [EvSt (StProgress (x + 1) text); EvSleep 40])%list.
    split; [|split; [|split]].
    + cbn [for_each]. unfold bind at 1. cbn [bind time_sleep st emit log files].
      rewrite Hrun. cbn [log files]. rewrite <- app_assoc. reflexivity.
    + apply Forall_app. split; [assumption|repeat constructor].
    + rewrite rev_app_distr, slept_app, Hslept. cbn [rev app slept length].
      lia.
    + rewrite rev_app_distr, progress_values_app, Hvalues. reflexivity.
Qed.

Lemma progress_bar_run_full amount_of_time w :
  exists evs,
    progress_bar amount_of_time w
    = (Ok tt, {| log := evs ++ log w; files := files w |})
    /\ silent evs
    /\ slept (rev evs) = 40 * Z.max 0 amount_of_time + 1000
    /\ progress_values (rev evs)
       = 0 :: map (fun percent_complete => percent_complete + 1) (range amount_of_time).
Proof.
  unfold progress_bar.
  set (text := "Please wait, Generative models hard at work").
  set (w1 := {| log := EvSt (StProgress 0 text) :: log w; files := files w |}).
  destruct (progress_loop_run text (range amount_of_time) w1)
    as (evs & Hrun & Hs & Hslept & Hvalues).
  exists ([EvSt StProgressEmpty; EvSleep 1000] ++ evs ++ [EvSt (StProgress 0 text)])%list.
  split; [|split; [|split]].
  - unfold bind at 1. cbn [st emit]. fold w1.
    unfold bind at 1. rewrite Hrun. cbn. rewrite <- app_assoc. reflexivity.
  - apply Forall_app. split; [repeat constructor|].
    apply Forall_app. split; [assumption|repeat constructor].
  - rewrite !rev_app_distr, !slept_app, Hslept. cbn [rev app slept].
    unfold range. rewrite length_map, length_seq. lia.
  - rewrite !rev_app_distr, <- app_assoc, !progress_values_app, Hvalues.
    cbn [rev app progress_values]. rewrite app_nil_r. reflexivity.
Qed.

(** X1. For [n] up to 100 (beyond which the widget rejects the value),
    [progress_bar(n)] ends normally, touches no file, and sleeps
    [40 * max(0, n) + 1000] milliseconds in all: 40 per step and one second
    before the bar is cleared; a non-positive [n] costs the second only. *)
Theorem progress_bar_sleeps amount_of_time w :
  amount_of_time <= 100 ->
  fst (progress_bar amount_of_time w) = Ok tt
  /\ files (snd (progress_bar amount_of_time w)) = files w
  /\ slept (trace (snd (progress_bar amount_of_time w)))
     = slept (trace w) + 40 * Z.max 0 amount_of_time + 1000.
Proof.
  intros _.
  destruct (progress_bar_run_full amount_of_time w) as (evs & -> & _ & Hslept & _).
  split; [reflexivity|]. split; [reflexivity|].
  unfold trace. cbn [snd log]. rewrite rev_app_distr, slept_app, Hslept. lia.
Qed.

Lemma progress_bar_sleeps_witness :
  slept (trace (snd (progress_bar 100 fresh_world))) = 5000
  /\ slept (trace (snd (progress_bar (-3) fresh_world))) = 1000.
Proof.
  split.
  - rewrite (proj2 (proj2 (progress_bar_sleeps 100 fresh_world ltac:(lia)))).
    reflexivity.
  - rewrite (proj2 (proj2 (progress_bar_sleeps (-3) fresh_world ltac:(lia)))).
    reflexivity.
Defined.

Lemma map_succ_range (k : nat) :
  map (fun percent_complete => percent_complete + 1) (map Z.of_nat (seq 0 k))
  = map Z.of_nat (seq 1 k).
Proof.
  rewrite <- seq_shift, !map_map. apply map_ext. intros a. lia.
Qed.

(** X2. For [0 <= n <= 100] the bar is set to [0, 1, ..., n] in this order
    and to nothing else, so the last value shown before it is cleared is
    [n]. *)
Theorem progress_bar_counts_up amount_of_time w :
  0 <= amount_of_time <= 100 ->
  progress_values (trace (snd (progress_bar amount_of_time w)))
  = (progress_values (trace w)
     ++ map Z.of_nat (seq 0 (S (Z.to_nat amount_of_time))))%list
  /\ List.last (progress_values (trace (snd (progress_bar amount_of_time w)))) 0
     = amount_of_time.
Proof.
  intros Hrange.
  destruct (progress_bar_run_full amount_of_time w) as (evs & -> & _ & _ & Hvalues).
  assert (Hnew : progress_values (rev evs)
                 = map Z.of_nat (seq 0 (S (Z.to_nat amount_of_time)))).
  { rewrite Hvalues. unfold range. rewrite map_succ_range. reflexivity. }
  unfold trace. cbn [snd log]. rewrite rev_app_distr, progress_values_app, Hnew.
  split; [reflexivity|].
  rewrite seq_S, map_app. cbn [map]. rewrite app_assoc, List.last_last. lia.
Qed.

Lemma progress_bar_counts_up_witness :
  progress_values (trace (snd (progress_bar 3 fresh_world))) = [0; 1; 2; 3].
Proof.
  rewrite (proj1 (progress_bar_counts_up 3 fresh_world ltac:(lia))). reflexivity.
Defined.

(** ** What the stages are confined to *)

Lemma confined_ret {A} allowed paths (a : A) : confined allowed paths (ret a).
Proof. intros w. exists []. repeat split. Qed.

Lemma confined_lift {A} allowed paths (r : result A) : confined allowed paths (lift r).
Proof. intros w. exists []. repeat split. Qed.

Lemma confined_emit allowed paths (e : Event) :
  allowed e = true -> confined allowed paths (emit e).
Proof.
  intros He w. exists [e]. cbn. rewrite He. repeat split.
Qed.

Lemma confined_open_wb (allowed : Event -> bool) paths path :
  allowed (EvOpenWb path) = true -> In path paths ->
  confined allowed paths (open_wb path).
Proof.
  intros He Hin w. exists [EvOpenWb path]. cbn. rewrite He. repeat split.
  intros path' Hout. apply lookup_insert_ne. intros ->. contradiction.
Qed.

Lemma confined_file_write (allowed : Event -> bool) paths path data :
  allowed (EvFileWrite path data) = true -> In path paths ->
  confined allowed paths (file_write path data).
Proof.
  intros He Hin w. exists [EvFileWrite path data]. cbn. rewrite He. repeat split.
  intros path' Hout. apply lookup_insert_ne. intros ->. contradiction.
Qed.

Lemma confined_bind {A B} allowed paths (m : M A) (k : A -> M B) :
  confined allowed paths m ->
  (forall a, confined allowed paths (k a)) ->
  confined allowed paths (bind m k).
Proof.
  intros Hm Hk w. destruct (Hm w) as (evs1 & Hlog1 & Hall1 & Hfiles1).
  unfold bind. destruct (m w) as [[a|e] w1]; cbn [snd] in *.
  - destruct (Hk a w1) as (evs2 & Hlog2 & Hall2 & Hfiles2).
    exists (evs2 ++ evs1)%list. split; [|split].
    + rewrite Hlog2, Hlog1. apply app_assoc.
    + rewrite forallb_app, Hall1, Hall2. reflexivity.
    + intros path Hout. rewrite (Hfiles2 path Hout). apply Hfiles1, Hout.
  - exists evs1. auto.
Qed.

Lemma confined_for_each {A} allowed paths (l : list A) (body : A -> M unit) :
  (forall x, confined allowed paths (body x)) ->
  confined allowed paths (for_each l body).
Proof.
  intros Hbody. induction l as [|x l IH]; cbn [for_each].
  - apply confined_ret.
  - apply confined_bind; [apply Hbody|intros _; exact IH].
Qed.

Lemma confined_list_index {A} allowed paths (l : list A) i :
  confined allowed paths (list_index l i).
Proof.
  unfold list_index. destruct (l !! i); [apply confined_ret|apply confined_lift].
Qed.

Lemma confined_dict_get allowed paths d k : confined allowed paths (dict_get d k).
Proof.
  unfold dict_get. destruct (d !! k); [apply confined_ret|apply confined_lift].
Qed.

Ltac confine :=
  repeat first
    [ apply confined_ret
    | apply confined_lift
    | apply confined_list_index
    | apply confined_dict_get
    | apply confined_emit; reflexivity
    | apply confined_open_wb; [reflexivity|cbn; tauto]
    | apply confined_file_write; [reflexivity|cbn; tauto]
    | apply confined_for_each; intros ?
    | apply confined_bind; [|intros ?] ].

Lemma confined_weaken {A} (allowed allowed' : Event -> bool) paths paths' (m : M A) :
  (forall e, allowed e = true -> allowed' e = true) ->
  (forall path, In path paths -> In path paths') ->
  confined allowed paths m -> confined allowed' paths' m.
Proof.
  intros Hallowed Hpaths Hm w. destruct (Hm w) as (evs & Hlog & Hall & Hfiles).
  exists evs. split; [exact Hlog|]. split.
  - rewrite forallb_forall in *. intros e He. apply Hallowed, Hall, He.
  - intros path Hout. apply Hfiles. intros Hin. apply Hout, Hpaths, Hin.
Qed.

Lemma caption_confined E url :
  confined caption_event [] (generate_text_from_image E url).
Proof.
  unfold generate_text_from_image, call_pipeline, print. confine.
Qed.

Lemma tell_confined E scenario :
  confined tell_event [] (generate_story_from_text E scenario).
Proof.
  unfold generate_story_from_text, ChatOpenAI, LLMChain_predict, print. cbn zeta.
  confine.
Qed.

Lemma narrate_confined E message :
  confined narrate_event ["generated_audio.flac"] (generate_speech_from_text E message).
Proof.
  unfold generate_speech_from_text, post. cbn zeta. confine.
Qed.

Lemma confined_no_files {A} allowed (m : M A) w :
  confined allowed [] m -> files (snd (m w)) = files w.
Proof.
  intros Hm. destruct (Hm w) as (evs & _ & _ & Hfiles).
  apply map_eq. intros path. apply Hfiles. intros [].
Qed.

(** X3. The captioner and the storyteller never create or change a
    file, whatever their outcome, and the narrator changes no file but
    ["generated_audio.flac"]. *)
Theorem stages_leave_other_files E text w :
  files (snd (generate_text_from_image E text w)) = files w
  /\ files (snd (generate_story_from_text E text w)) = files w
  /\ (forall path,
         path <> "generated_audio.flac" ->
         files (snd (generate_speech_from_text E text w)) !! path = files w !! path).
Proof.
  split; [|split].
  - apply (confined_no_files caption_event), caption_confined.
  - apply (confined_no_files tell_event), tell_confined.
  - intros path Hpath.
    destruct (narrate_confined E text w) as (evs & _ & _ & Hfiles).
    apply Hfiles. intros [Heq|[]]. apply Hpath. symmetry. exact Heq.
Qed.

Lemma stages_leave_other_files_witness :
  files (snd (generate_speech_from_text demo_env "Once upon a time." crowded_world))
  !! "notes.txt" = Some (list_byte_of_string "keep me").
Proof.
  destruct (stages_leave_other_files demo_env "Once upon a time." crowded_world)
    as (_ & _ & Hother).
  etransitivity; [apply (Hother "notes.txt"); discriminate|reflexivity].
Defined.

(** X4. When the request to the speech service raises, the narrator
    raises the same exception before it opens the audio file: the trace
    gains the POST only and every file, the audio of an earlier run
    included, is as it was. *)
Theorem narrate_failed_request_keeps_file E story w e :
  requests_post E API_URL (bearer E) {[ "inputs" := story ]} = Raise e ->
  fst (generate_speech_from_text E story w) = Raise e
  /\ files (snd (generate_speech_from_text E story w)) = files w
  /\ trace (snd (generate_speech_from_text E story w))
     = (trace w ++ [EvPost API_URL (bearer E) {[ "inputs" := story ]}])%list.
Proof.
  intros Hpost. rewrite narrate_run, Hpost. repeat split.
Qed.

Lemma narrate_failed_request_keeps_file_witness :
  fst (generate_speech_from_text speech_unreachable_env "Once upon a time." used_world)
  = Raise (External "connection refused")
  /\ files (snd (generate_speech_from_text speech_unreachable_env "Once upon a time."
                   used_world))
     !! "generated_audio.flac" = Some (list_byte_of_string "older, longer audio").
Proof.
  destruct (narrate_failed_request_keeps_file speech_unreachable_env "Once upon a time."
              used_world (External "connection refused") eq_refl) as (Hr & Hf & _).
  rewrite Hr, Hf. split; reflexivity.
Defined.

(** X5. When the first candidate record has no ["generated_text"] field
    the captioner raises [KeyError] on that key, whatever the later
    candidates hold, and prints no diagnostic line. *)
Theorem caption_missing_field E url w image_to_text first rest :
  pipeline E "image-to-text" "nlpconnect/vit-gpt2-image-captioning" = Ok image_to_text ->
  image_to_text url = Ok (first :: rest) ->
  first !! "generated_text" = None ->
  fst (generate_text_from_image E url w) = Raise (KeyError "generated_text")
  /\ prints (trace (snd (generate_text_from_image E url w))) = prints (trace w).
Proof.
  intros Hload Hrun Hfield. rewrite caption_run. cbn zeta.
  rewrite Hload, Hrun, Hfield. split; [reflexivity|].
  unfold prints, trace. cbn [snd log]. rewrite !select_trace_cons. cbn [is_print].
  rewrite !app_nil_r. reflexivity.
Qed.

Lemma caption_missing_field_witness :
  fst (generate_text_from_image odd_candidates_env "cat.jpg" fresh_world)
  = Raise (KeyError "generated_text").
Proof.
  apply (caption_missing_field odd_candidates_env "cat.jpg" fresh_world
           (fun _ => Ok [ {[ "label" := "cat" ]};
                          {[ "generated_text" := "a dog on a sofa" ]} ])
           {[ "label" := "cat" ]} [ {[ "generated_text" := "a dog on a sofa" ]} ]);
    reflexivity.
Defined.

(** X6. When loading the captioning model raises, the captioner raises
    the same exception and has done nothing else: the model is not called
    on the image and nothing is printed. *)
Theorem caption_load_failure E url w e :
  pipeline E "image-to-text" "nlpconnect/vit-gpt2-image-captioning" = Raise e ->
  fst (generate_text_from_image E url w) = Raise e
  /\ trace (snd (generate_text_from_image E url w))
     = (trace w
        ++ [EvPipeline "image-to-text" "nlpconnect/vit-gpt2-image-captioning"])%list.
Proof.
  intros Hload. rewrite caption_run. cbn zeta. rewrite Hload. split; reflexivity.
Qed.

Lemma caption_load_failure_witness :
  trace (snd (generate_text_from_image no_model_env "cat.jpg" fresh_world))
  = [EvPipeline "image-to-text" "nlpconnect/vit-gpt2-image-captioning"].
Proof.
  apply (caption_load_failure no_model_env "cat.jpg" fresh_world
           (External "model unavailable") eq_refl).
Defined.

(** X7. On success the captioner has loaded the model, called it once on
    the image location and then printed its two diagnostic lines, in this
    order; it does so on every call, keeping no model between calls. *)
Theorem caption_success_trace E url w scenario :
  fst (generate_text_from_image E url w) = Ok scenario ->
  trace (snd (generate_text_from_image E url w))
  = (trace w
     ++ [EvPipeline "image-to-text" "nlpconnect/vit-gpt2-image-captioning";
         EvImageToText url;
         EvPrint ("IMAGE INPUT: " +:+ url);
         EvPrint ("GENERATED TEXT OUTPUT: " +:+ scenario)])%list.
Proof.
  intros Hok. rewrite (caption_ok_run E url w scenario Hok w).
  unfold trace. cbn [snd log rev]. rewrite <- !app_assoc. reflexivity.
Qed.

Lemma caption_success_trace_witness :
  trace (snd (generate_text_from_image demo_env "cat.jpg" fresh_world))
  = [EvPipeline "image-to-text" "nlpconnect/vit-gpt2-image-captioning";
     EvImageToText "cat.jpg";
     EvPrint "IMAGE INPUT: cat.jpg";
     EvPrint "GENERATED TEXT OUTPUT: a cat sitting on a windowsill"].
Proof.
  apply (caption_success_trace demo_env "cat.jpg" fresh_world
           "a cat sitting on a windowsill" eq_refl).
Defined.

(** ** More on the storyteller *)

Lemma string_app_assoc (a b c : string) : (a +:+ b) +:+ c = a +:+ (b +:+ c).
Proof.
  induction a as [|x a IH]; [reflexivity|].
  change (String x ((a +:+ b) +:+ c) = String x (a +:+ (b +:+ c))).
  rewrite IH. reflexivity.
Qed.

Lemma result_map_ok {A B} (f : A -> B) (r : result A) (b : B) :
  result_map f r = Ok b -> exists a, r = Ok a /\ b = f a.
Proof. destruct r as [a|e]; [|discriminate]. intros [= <-]. eauto. Qed.

(** Formatting a text that is a complete format string by itself, then
    going on with what follows it. *)
Lemma format_from_app kwargs (a : string) :
  forall state x rest,
    format_from kwargs state a = Ok x ->
    format_from kwargs state (a +:+ rest)
    = result_map (String.append x) (format_from kwargs InText rest).
Proof.
  induction a as [|c a IH]; intros state x rest Hok.
  - destruct state; try discriminate. injection Hok as <-.
    change ("" +:+ rest) with rest.
    destruct (format_from kwargs InText rest); reflexivity.
  - change (String c a +:+ rest) with (String c (a +:+ rest)).
    assert (Hchar : forall state' y,
               format_from kwargs state' a = Ok y ->
               result_map (String c) (format_from kwargs state' (a +:+ rest))
               = result_map (String.append (String c y))
                            (format_from kwargs InText rest)).
    { intros state' y Hy. rewrite (IH _ _ rest Hy).
      destruct (format_from kwargs InText rest); reflexivity. }
    assert (Hfield : forall field_name,
               match field_char field_name c with
               | FieldEnds =>
                   match get_value kwargs field_name with
                   | Ok v => result_map (String.append v) (format_from kwargs InText a)
                   | Raise e => Raise e
                   end
               | FieldGrows field_name' => format_from kwargs (InField field_name') a
               | FieldFails e => Raise e
               end = Ok x ->
               match field_char field_name c with
               | FieldEnds =>
                   match get_value kwargs field_name with
                   | Ok v => result_map (String.append v)
                                        (format_from kwargs InText (a +:+ rest))
                   | Raise e => Raise e
                   end
               | FieldGrows field_name' =>
                   format_from kwargs (InField field_name') (a +:+ rest)
               | FieldFails e => Raise e
               end = result_map (String.append x) (format_from kwargs InText rest)).
    { intros field_name. destruct (field_char field_name c); [| |discriminate].
      - destruct (get_value kwargs field_name) as [v|]; [|discriminate].
        intros Hv. apply result_map_ok in Hv as (y & Hy & ->).
        rewrite (IH _ _ rest Hy).
        destruct (format_from kwargs InText rest); cbn [result_map]; [|reflexivity].
        rewrite string_app_assoc. reflexivity.
      - intros Hy. apply (IH _ _ rest Hy). }
    cbn [format_from] in Hok |- *.
    destruct state.
    + destruct (Ascii.eqb c "{"); [apply (IH _ _ rest Hok)|].
      destruct (Ascii.eqb c "}"); [apply (IH _ _ rest Hok)|].
      apply result_map_ok in Hok as (y & Hy & ->). apply (Hchar _ _ Hy).
    + destruct (Ascii.eqb c "{"); [|apply Hfield, Hok].
      apply result_map_ok in Hok as (y & Hy & ->). apply (Hchar _ _ Hy).
    + destruct (Ascii.eqb c "}"); [|discriminate].
      apply result_map_ok in Hok as (y & Hy & ->). apply (Hchar _ _ Hy).
    + apply Hfield, Hok.
Qed.

Lemma format_template_suffix kwargs :
  format_from kwargs InText template_suffix = Ok template_suffix.
Proof. reflexivity. Qed.

(** X8. What the storyteller sends is the scenario after one pass of
    [str.format]: whenever the scenario, read as a format string with
    itself as the value of [scenario], formats to [x], the one request
    carries the template with [x] in its slot. *)
Theorem tell_prompt_is_formatted_scenario E scenario w x :
  validate_environment E (environ E) = Ok tt ->
  str_format scenario {[ "scenario" := scenario ]} = Ok x ->
  network_calls (trace (snd (generate_story_from_text E scenario w)))
  = (network_calls (trace w)
     ++ [EvPredict gpt (template_prefix +:+ x +:+ template_suffix)])%list.
Proof.
  intros Hkey Hformat. rewrite tell_run. cbn zeta. rewrite Hkey.
  assert (Hprompt : str_format (template_prefix +:+ scenario +:+ template_suffix)
                               {[ "scenario" := scenario ]}
                    = Ok (template_prefix +:+ x +:+ template_suffix)).
  { unfold str_format in *. rewrite format_text_no_braces by reflexivity.
    rewrite (format_from_app _ _ _ _ template_suffix Hformat).
    rewrite format_template_suffix. reflexivity. }
  rewrite Hprompt. unfold trace.
  destruct (chat_completion E gpt _); cbn [snd log];
    rewrite ?network_calls_trace_cons; cbn [is_network_call];
    rewrite ?app_nil_r; reflexivity.
Qed.

Lemma tell_prompt_is_formatted_scenario_witness :
  network_calls (trace (snd (generate_story_from_text demo_env "a {{cat}} by {scenario}"
                               fresh_world)))
  = [EvPredict gpt (template_prefix +:+ "a {cat} by a {{cat}} by {scenario}"
                    +:+ template_suffix)].
Proof.
  apply (tell_prompt_is_formatted_scenario demo_env "a {{cat}} by {scenario}" fresh_world
           "a {cat} by a {{cat}} by {scenario}").
  - reflexivity.
  - vm_compute. reflexivity.
Defined.


(** X11. When [predict] raises, whatever the client did before giving
    up, the storyteller raises the same exception, prints neither of its
    diagnostic lines and leaves every file as it was. *)
Theorem tell_request_failure E scenario w text e :
  validate_environment E (environ E) = Ok tt ->
  str_format (template_prefix +:+ scenario +:+ template_suffix)
             {[ "scenario" := scenario ]} = Ok text ->
  chat_completion E gpt text = Raise e ->
  fst (generate_story_from_text E scenario w) = Raise e
  /\ prints (trace (snd (generate_story_from_text E scenario w))) = prints (trace w)
  /\ files (snd (generate_story_from_text E scenario w)) = files w.
Proof.
  intros Hkey Hformat Hmodel. rewrite tell_run. cbn zeta.
  rewrite Hkey, Hformat, Hmodel. split; [reflexivity|]. split; [|reflexivity].
  unfold prints, trace. cbn [snd log]. rewrite !select_trace_cons. cbn [is_print].
  rewrite !app_nil_r. reflexivity.
Qed.

Lemma tell_request_failure_witness :
  fst (generate_story_from_text llm_down_env "a cat" fresh_world)
  = Raise (External "timeout")
  /\ prints (trace (snd (generate_story_from_text llm_down_env "a cat" fresh_world))) = [].
Proof.
  destruct (tell_request_failure llm_down_env "a cat" fresh_world
              (template_prefix +:+ "a cat" +:+ template_suffix) (External "timeout"))
    as (Hr & Hp & _).
  - reflexivity.
  - vm_compute. reflexivity.
  - reflexivity.
  - rewrite Hr, Hp. split; reflexivity.
Defined.

(** ** More on the orchestrator *)

Lemma silent_stage_calls (evs : list Event) : silent evs -> stage_calls (rev evs) = [].
Proof.
  intros Hs. unfold stage_calls.
  rewrite <- (app_nil_r evs), (silent_select is_stage_call evs [] (fun e H => H) Hs).
  reflexivity.
Qed.

Lemma after_bar_slept (evs : list Event) :
  forallb after_bar_event evs = true -> slept evs = 0 /\ progress_values evs = [].
Proof.
  induction evs as [|e evs IH]; [split; reflexivity|].
  cbn [forallb]. intros [He Hevs]%andb_prop. destruct (IH Hevs) as [Hs Hv].
  destruct e as [| |[]| | | | | | | |]; try discriminate; cbn [slept progress_values];
    auto.
Qed.

Lemma forallb_rev {A} (p : A -> bool) (l : list A) :
  forallb p l = true -> forallb p (rev l) = true.
Proof.
  rewrite !forallb_forall. intros H x Hx. apply H, in_rev, Hx.
Qed.

(** What [main] does with an upload before the first stage. *)
Lemma main_prelude E uploaded_file w :
  file_uploader E = Some uploaded_file ->
  exists evs,
    silent evs
    /\ slept (rev evs) = 5000
    /\ progress_values (rev evs) = map Z.of_nat (seq 0 101)
    /\ main E w
       = (scenario <- generate_text_from_image E (name uploaded_file) ;;
          story <- generate_story_from_text E scenario ;;
          generate_speech_from_text E story ;;;
          st (StWithin "Generated scenario" (StWrite scenario)) ;;;
          st (StWithin "Generated story" (StWrite story)) ;;;
          st (StAudio "generated_audio.flac"))
           {| log := evs ++ log w;
              files := <[name uploaded_file := getvalue uploaded_file]> (files w) |}.
Proof.
  intros Hfile. unfold main. rewrite Hfile.
  cbn [bind st emit open_wb file_write log files].
  rewrite lookup_insert_eq, insert_insert_eq. cbn [default id app].
  unfold bind at 1.
  match goal with
  | |- context [progress_bar 100 ?w1] =>
      destruct (progress_bar_run_full 100 w1) as (evs & Hrun & Hs & Hslept & Hvalues);
      rewrite Hrun
  end.
  cbn [log files].
  eexists (evs ++ [_; _; _; _; _; _; _; _; _; _; _])%list.
  split; [|split; [|split]]; cycle 3.
  - rewrite <- app_assoc. reflexivity.
  - apply Forall_app. split; [assumption|repeat constructor].
  - rewrite rev_app_distr, slept_app, Hslept. reflexivity.
  - rewrite rev_app_distr, progress_values_app, Hvalues. reflexivity.
Qed.

Lemma after_upload_confined E uploaded_file :
  confined after_bar_event ["generated_audio.flac"]
    (scenario <- generate_text_from_image E (name uploaded_file) ;;
     story <- generate_story_from_text E scenario ;;
     generate_speech_from_text E story ;;;
     st (StWithin "Generated scenario" (StWrite scenario)) ;;;
     st (StWithin "Generated story" (StWrite story)) ;;;
     st (StAudio "generated_audio.flac")).
Proof.
  apply confined_bind; [|intros scenario; apply confined_bind; [|intros story]].
  - apply (confined_weaken caption_event _ [] _); [| |apply caption_confined].
    + intros []; discriminate || reflexivity.
    + intros path [].
  - apply (confined_weaken tell_event _ [] _); [| |apply tell_confined].
    + intros []; discriminate || reflexivity.
    + intros path [].
  - apply confined_bind; [|intros _; unfold st; confine].
    apply (confined_weaken narrate_event _ ["generated_audio.flac"] _);
      [| |apply narrate_confined].
    + intros []; discriminate || reflexivity.
    + auto.
Qed.

(** X12. With an upload, [main] stores the uploaded bytes under the
    upload's own name before anything else can fail, replacing what that
    file held: whatever the stages do afterwards, the file holds exactly
    the upload when [main] ends (the name being other than that of the
    audio file). *)
Theorem main_keeps_upload E uploaded_file w :
  file_uploader E = Some uploaded_file ->
  name uploaded_file <> "generated_audio.flac" ->
  files (snd (main E w)) !! name uploaded_file = Some (getvalue uploaded_file).
Proof.
  intros Hfile Hname.
  destruct (main_prelude E uploaded_file w Hfile) as (evs & _ & _ & _ & ->).
  destruct (after_upload_confined E uploaded_file
              {| log := evs ++ log w;
                 files := <[name uploaded_file := getvalue uploaded_file]> (files w) |})
    as (evs' & _ & _ & Hfiles).
  rewrite Hfiles.
  - cbn [files]. apply lookup_insert_eq.
  - intros [Heq|[]]. apply Hname. symmetry. exact Heq.
Qed.

Lemma main_keeps_upload_witness :
  files (snd (main no_model_env crowded_world)) !! "cat.jpg"
  = Some (list_byte_of_string "JFIF").
Proof.
  apply (main_keeps_upload no_model_env cat_jpg crowded_world eq_refl).
  discriminate.
Defined.

(** X13. [main] writes to at most two files: the one named after the
    upload and ["generated_audio.flac"].  Every other file is left as it
    was, whatever the outcome. *)
Theorem main_touches_two_files E uploaded_file w path :
  file_uploader E = Some uploaded_file ->
  path <> name uploaded_file ->
  path <> "generated_audio.flac" ->
  files (snd (main E w)) !! path = files w !! path.
Proof.
  intros Hfile Hupload Haudio.
  destruct (main_prelude E uploaded_file w Hfile) as (evs & _ & _ & _ & ->).
  destruct (after_upload_confined E uploaded_file
              {| log := evs ++ log w;
                 files := <[name uploaded_file := getvalue uploaded_file]> (files w) |})
    as (evs' & _ & _ & Hfiles).
  rewrite Hfiles.
  - cbn [files]. apply lookup_insert_ne. intros Heq. apply Hupload. symmetry. exact Heq.
  - intros [Heq|[]]. apply Haudio. symmetry. exact Heq.
Qed.

Lemma main_touches_two_files_witness :
  files (snd (main demo_env crowded_world)) !! "notes.txt"
  = Some (list_byte_of_string "keep me").
Proof.
  etransitivity;
    [apply (main_touches_two_files demo_env cat_jpg crowded_world "notes.txt" eq_refl);
     discriminate|reflexivity].
Defined.

(** X14. With an upload, the progress bar is pure waiting: before the
    captioning model is even loaded [main] has set the bar to
    [0, 1, ..., 100] and slept 5000 milliseconds, and it neither sleeps
    nor touches the bar afterwards, whatever the stages do. *)
Theorem main_waits_before_working E uploaded_file w :
  file_uploader E = Some uploaded_file ->
  exists before after,
    trace (snd (main E w)) = (trace w ++ before ++ after)%list
    /\ stage_calls before = []
    /\ slept before = 5000
    /\ progress_values before = map Z.of_nat (seq 0 101)
    /\ slept after = 0
    /\ progress_values after = [].
Proof.
  intros Hfile.
  destruct (main_prelude E uploaded_file w Hfile) as (evs & Hs & Hslept & Hvalues & ->).
  destruct (after_upload_confined E uploaded_file
              {| log := evs ++ log w;
                 files := <[name uploaded_file := getvalue uploaded_file]> (files w) |})
    as (evs' & Hlog & Hall & _).
  exists (rev evs), (rev evs'). unfold trace. rewrite Hlog. cbn [log].
  rewrite !rev_app_distr, <- app_assoc.
  destruct (after_bar_slept (rev evs') (forallb_rev _ _ Hall)) as [Hs' Hv'].
  split; [reflexivity|]. repeat split; auto using silent_stage_calls.
Qed.

Lemma main_waits_before_working_witness :
  slept (trace (snd (main no_model_env fresh_world))) = 5000.
Proof.
  destruct (main_waits_before_working no_model_env cat_jpg fresh_world eq_refl)
    as (before & after & -> & _ & Hb & _ & Ha & _).
  cbn [trace fresh_world log rev app]. rewrite slept_app, Hb, Ha. reflexivity.
Defined.

(** X15. Without an upload [main] only draws the page: it ends normally,
    calls no stage, sleeps not at all and leaves every file as it was. *)
Theorem main_without_upload E w :
  file_uploader E = None ->
  fst (main E w) = Ok tt
  /\ files (snd (main E w)) = files w
  /\ stage_calls (trace (snd (main E w))) = stage_calls (trace w)
  /\ slept (trace (snd (main E w))) = slept (trace w).
Proof.
  intros Hfile. unfold main. rewrite Hfile.
  cbn [bind st emit ret log files fst snd].
  split; [reflexivity|]. split; [reflexivity|]. unfold trace. cbn [log]. split.
  - unfold stage_calls. rewrite !select_trace_cons. cbn [is_stage_call].
    rewrite !app_nil_r. reflexivity.
  - cbn [rev]. rewrite !slept_app. cbn [slept]. lia.
Qed.

Lemma main_without_upload_witness :
  fst (main idle_env crowded_world) = Ok tt
  /\ files (snd (main idle_env crowded_world)) = files crowded_world.
Proof.
  destruct (main_without_upload idle_env crowded_world eq_refl) as (Hr & Hf & _).
  split; assumption.
Defined.

Lemma select_none (p allowed : Event -> bool) (evs l : list Event) :
  (forall e, allowed e = true -> p e = false) ->
  forallb allowed evs = true ->
  List.filter p (rev (evs ++ l)) = List.filter p (rev l).
Proof.
  intros Hp Hall. rewrite rev_app_distr, List.filter_app.
  assert (Hnone : List.filter p (rev evs) = []).
  { induction evs as [|e evs IH]; [reflexivity|].
    cbn [forallb] in Hall. apply andb_prop in Hall as [He Hall].
    cbn [rev]. rewrite List.filter_app, (IH Hall). cbn.
    rewrite (Hp e He). reflexivity. }
  rewrite Hnone. apply app_nil_r.
Qed.

Lemma tell_result_any_world E scenario w w' :
  fst (generate_story_from_text E scenario w)
  = fst (generate_story_from_text E scenario w').
Proof.
  rewrite !tell_run. cbn zeta.
  destruct (validate_environment E (environ E)); [|reflexivity].
  destruct (str_format _ _) as [text|]; [|reflexivity].
  destruct (chat_completion E gpt text); reflexivity.
Qed.

Lemma tell_fail_run E scenario w0 e :
  fst (generate_story_from_text E scenario w0) = Raise e ->
  forall w, exists evs,
    generate_story_from_text E scenario w
    = (Raise e, {| log := evs ++ log w; files := files w |})
    /\ forallb tell_event evs = true.
Proof.
  intros Hfail w. rewrite (tell_result_any_world E scenario w0 w) in Hfail.
  destruct (tell_confined E scenario w) as (evs & Hlog & Hall & Hfiles).
  exists evs. split; [|exact Hall].
  destruct (generate_story_from_text E scenario w) as [r [l f]].
  cbn [fst snd log files] in *. subst r l. f_equal. f_equal.
  apply map_eq. intros path. apply Hfiles. intros [].
Qed.

(** A whole run of [main] in which every stage succeeds. *)
Lemma main_ok_run E uploaded_file w0 scenario story response :
  file_uploader E = Some uploaded_file ->
  fst (generate_text_from_image E (name uploaded_file) w0) = Ok scenario ->
  fst (generate_story_from_text E scenario w0) = Ok story ->
  requests_post E API_URL (bearer E) {[ "inputs" := story ]} = Ok response ->
  exists text,
    str_format (template_prefix +:+ scenario +:+ template_suffix)
               {[ "scenario" := scenario ]} = Ok text
    /\ forall w, exists evs,
        silent evs
        /\ main E w
           = (Ok tt,
              {| log := [EvSt (StAudio "generated_audio.flac");
                         EvSt (StWithin "Generated story" (StWrite story));
                         EvSt (StWithin "Generated scenario" (StWrite scenario));
                         EvFileWrite "generated_audio.flac" (content response);
                         EvOpenWb "generated_audio.flac";
                         EvPost API_URL (bearer E) {[ "inputs" := story ]};
                         EvPrint ("GENERATED STORY OUTPUT: " +:+ story);
                         EvPrint ("TEXT INPUT: " +:+ scenario);
                         EvPredict gpt text;
                         EvChatOpenAI "gpt-3.5-turbo" 1;
                         EvPrint ("GENERATED TEXT OUTPUT: " +:+ scenario);
                         EvPrint ("IMAGE INPUT: " +:+ name uploaded_file);
                         EvImageToText (name uploaded_file);
                         EvPipeline "image-to-text" "nlpconnect/vit-gpt2-image-captioning"]
                        ++ evs ++ log w;
                 files := <["generated_audio.flac" := content response]>
                            (<[name uploaded_file := getvalue uploaded_file]> (files w)) |}).
Proof.
  intros Hfile Hcaption Htell Hpost.
  destruct (tell_ok_run _ _ _ _ Htell) as (text & Hformat & Hrun).
  exists text. split; [exact Hformat|]. intros w.
  destruct (main_prelude E uploaded_file w Hfile) as (evs & Hs & _ & _ & ->).
  exists evs. split; [exact Hs|].
  unfold bind at 1. rewrite (caption_ok_run _ _ _ _ Hcaption).
  unfold bind at 1. rewrite Hrun.
  unfold bind at 1. rewrite narrate_run, Hpost.
  reflexivity.
Qed.

(** X16. When every stage succeeds, [main] ends normally; the audio
    file then holds the body of the speech service's response, the upload
    is stored under its name, no other file has changed, and the last
    three things shown are the scenario, the story and the audio player
    on ["generated_audio.flac"], in this order. *)
Theorem main_success E uploaded_file w scenario story response :
  file_uploader E = Some uploaded_file ->
  fst (generate_text_from_image E (name uploaded_file) w) = Ok scenario ->
  fst (generate_story_from_text E scenario w) = Ok story ->
  requests_post E API_URL (bearer E) {[ "inputs" := story ]} = Ok response ->
  fst (main E w) = Ok tt
  /\ files (snd (main E w))
     = <["generated_audio.flac" := content response]>
         (<[name uploaded_file := getvalue uploaded_file]> (files w))
  /\ exists before,
      trace (snd (main E w))
      = (before
         ++ [EvSt (StWithin "Generated scenario" (StWrite scenario));
             EvSt (StWithin "Generated story" (StWrite story));
             EvSt (StAudio "generated_audio.flac")])%list.
Proof.
  intros Hfile Hcaption Htell Hpost.
  destruct (main_ok_run _ _ _ _ _ _ Hfile Hcaption Htell Hpost) as (text & _ & Hrun).
  destruct (Hrun w) as (evs & _ & ->).
  split; [reflexivity|]. split; [reflexivity|].
  unfold trace. cbn [snd log app].
  match goal with
  | |- context [rev (_ :: _ :: _ :: ?rest)] => exists (rev rest)
  end.
  cbn [rev]. rewrite <- !app_assoc. reflexivity.
Qed.

Lemma main_success_witness :
  fst (main demo_env crowded_world) = Ok tt
  /\ files (snd (main demo_env crowded_world)) !! "generated_audio.flac" = Some flac_bytes
  /\ files (snd (main demo_env crowded_world)) !! "cat.jpg"
     = Some (list_byte_of_string "JFIF").
Proof.
  destruct (main_success demo_env cat_jpg crowded_world
              "a cat sitting on a windowsill" "The cat watched the rain and purred."
              {| status_code := 200; response_headers := ∅; content := flac_bytes |}
              eq_refl eq_refl eq_refl eq_refl) as (Hr & Hf & _).
  rewrite Hr, Hf. split; [reflexivity|]. split; vm_compute; reflexivity.
Defined.

(** X17. When the storyteller fails after a successful caption, [main]
    fails with the same exception and the narrator is never reached: no
    POST is made and the audio file is not touched, so audio left by an
    earlier run stays in place; only the upload has been stored. *)
Theorem main_tell_failure E uploaded_file w scenario e :
  file_uploader E = Some uploaded_file ->
  fst (generate_text_from_image E (name uploaded_file) w) = Ok scenario ->
  fst (generate_story_from_text E scenario w) = Raise e ->
  fst (main E w) = Raise e
  /\ posts (trace (snd (main E w))) = posts (trace w)
  /\ files (snd (main E w))
     = <[name uploaded_file := getvalue uploaded_file]> (files w).
Proof.
  intros Hfile Hcaption Htell.
  destruct (main_prelude E uploaded_file w Hfile) as (evs & Hs & _ & _ & Hmain).
  assert (Hrun : exists evs',
             forallb tell_event evs' = true
             /\ main E w
                = (Raise e,
                   {| log := evs'
                             ++ [EvPrint ("GENERATED TEXT OUTPUT: " +:+ scenario);
                                 EvPrint ("IMAGE INPUT: " +:+ name uploaded_file);
                                 EvImageToText (name uploaded_file);
                                 EvPipeline "image-to-text"
                                            "nlpconnect/vit-gpt2-image-captioning"]
                             ++ evs ++ log w;
                      files := <[name uploaded_file := getvalue uploaded_file]>
                                 (files w) |})).
  { rewrite Hmain. unfold bind at 1. rewrite (caption_ok_run _ _ _ _ Hcaption).
    unfold bind at 1.
    match goal with
    | |- context [generate_story_from_text E scenario ?w1] =>
        destruct (tell_fail_run _ _ _ _ Htell w1) as (evs' & -> & Hall)
    end.
    exists evs'. split; [exact Hall|reflexivity]. }
  destruct Hrun as (evs' & Hall & ->).
  split; [reflexivity|]. split; [|reflexivity].
  unfold posts, trace. cbn [snd log].
  rewrite (select_none is_post tell_event evs') by
    (exact Hall || (intros []; discriminate || reflexivity)).
  cbn [app]. rewrite !select_trace_cons. cbn [is_post]. rewrite !app_nil_r.
  apply silent_select; [|exact Hs].
  intros [] H; try discriminate; reflexivity.
Qed.

Lemma main_tell_failure_witness :
  fst (main llm_down_env crowded_world) = Raise (External "timeout")
  /\ files (snd (main llm_down_env crowded_world)) !! "generated_audio.flac"
     = Some (list_byte_of_string "older, longer audio").
Proof.
  destruct (main_tell_failure llm_down_env cat_jpg crowded_world
              "a cat sitting on a windowsill" (External "timeout")
              eq_refl eq_refl) as (Hr & _ & Hf).
  - rewrite tell_run. vm_compute. reflexivity.
  - rewrite Hr, Hf. split; [reflexivity|]. vm_compute. reflexivity.
Defined.

(** X18. Nothing is kept from one run to the next: when the script runs
    twice on the same upload and every stage succeeds, the captioning
    model, the language model and the speech service are each called
    again, with the same arguments, and the second run ends normally. *)
Theorem main_twice_calls_twice E uploaded_file w scenario story response :
  file_uploader E = Some uploaded_file ->
  fst (generate_text_from_image E (name uploaded_file) w) = Ok scenario ->
  fst (generate_story_from_text E scenario w) = Ok story ->
  requests_post E API_URL (bearer E) {[ "inputs" := story ]} = Ok response ->
  exists text,
    str_format (template_prefix +:+ scenario +:+ template_suffix)
               {[ "scenario" := scenario ]} = Ok text
    /\ fst ((main E ;;; main E) w) = Ok tt
    /\ stage_calls (trace (snd ((main E ;;; main E) w)))
       = (stage_calls (trace w)
          ++ [EvImageToText (name uploaded_file);
              EvPredict gpt text;
              EvPost API_URL (bearer E) {[ "inputs" := story ]}]
          ++ [EvImageToText (name uploaded_file);
              EvPredict gpt text;
              EvPost API_URL (bearer E) {[ "inputs" := story ]}])%list.
Proof.
  intros Hfile Hcaption Htell Hpost.
  destruct (main_ok_run _ _ _ _ _ _ Hfile Hcaption Htell Hpost) as (text & Hformat & Hrun).
  exists text. split; [exact Hformat|].
  unfold bind. destruct (Hrun w) as (evs1 & Hs1 & ->).
  match goal with
  | |- context [main E ?w1] => destruct (Hrun w1) as (evs2 & Hs2 & ->)
  end.
  split; [reflexivity|].
  unfold stage_calls, trace. cbn [snd log app].
  rewrite !select_trace_cons. cbn [is_stage_call]. rewrite !app_nil_r.
  rewrite (silent_select is_stage_call evs2 _ (fun e H => H) Hs2).
  rewrite !select_trace_cons. cbn [is_stage_call]. rewrite !app_nil_r.
  rewrite (silent_select is_stage_call evs1 _ (fun e H => H) Hs1).
  rewrite <- !app_assoc. reflexivity.
Qed.

Lemma main_twice_calls_twice_witness :
  List.length (stage_calls (trace (snd ((main demo_env ;;; main demo_env) fresh_world))))
  = 6%nat.
Proof.
  destruct (main_twice_calls_twice demo_env cat_jpg fresh_world
              "a cat sitting on a windowsill" "The cat watched the rain and purred."
              {| status_code := 200; response_headers := ∅; content := flac_bytes |}
              eq_refl eq_refl eq_refl eq_refl) as (text & _ & _ & ->).
  reflexivity.
Defined.

Lemma progress_bar_confined amount_of_time :
  confined bar_event [] (progress_bar amount_of_time).
Proof.
  unfold progress_bar, st, time_sleep. cbn zeta. confine.
Qed.

(** What [main] puts on the page before the first stage is none of the
    result widgets. *)
Lemma main_prelude_shows_no_result E uploaded_file w :
  file_uploader E = Some uploaded_file ->
  exists evs,
    forallb (fun e => negb (is_result_widget e)) evs = true
    /\ main E w
       = (scenario <- generate_text_from_image E (name uploaded_file) ;;
          story <- generate_story_from_text E scenario ;;
          generate_speech_from_text E story ;;;
          st (StWithin "Generated scenario" (StWrite scenario)) ;;;
          st (StWithin "Generated story" (StWrite story)) ;;;
          st (StAudio "generated_audio.flac"))
           {| log := evs ++ log w;
              files := <[name uploaded_file := getvalue uploaded_file]> (files w) |}.
Proof.
  intros Hfile. unfold main. rewrite Hfile.
  cbn [bind st emit open_wb file_write log files].
  rewrite lookup_insert_eq, insert_insert_eq. cbn [default id app].
  unfold bind at 1.
  match goal with
  | |- context [progress_bar 100 ?w1] =>
      destruct (progress_bar_confined 100 w1) as (evs & Hlog & Hall & Hfiles);
      destruct (progress_bar_run_full 100 w1) as (evs0 & Hrun & _);
      rewrite Hrun in Hlog |- *
  end.
  cbn [snd log files] in Hlog |- *. apply app_inv_tail in Hlog. subst evs0.
  eexists (evs ++ [_; _; _; _; _; _; _; _; _; _; _])%list. split; cycle 1.
  - rewrite <- app_assoc. reflexivity.
  - rewrite forallb_app. apply andb_true_intro. split; [|reflexivity].
    rewrite forallb_forall in *. intros e He. specialize (Hall e He).
    unfold bar_event in Hall.
    destruct e as [| |[]| | | | | | | |]; cbn in Hall; try discriminate Hall;
      reflexivity.
Qed.

(** X19. When the request to the speech service raises after caption and
    story succeeded, [main] fails with the same exception right after the
    POST: none of the result widgets (scenario, story, audio player) has
    been shown, the audio file is not touched and only the upload has
    been stored. *)
Theorem main_narrate_failure E uploaded_file w scenario story e :
  file_uploader E = Some uploaded_file ->
  fst (generate_text_from_image E (name uploaded_file) w) = Ok scenario ->
  fst (generate_story_from_text E scenario w) = Ok story ->
  requests_post E API_URL (bearer E) {[ "inputs" := story ]} = Raise e ->
  fst (main E w) = Raise e
  /\ files (snd (main E w))
     = <[name uploaded_file := getvalue uploaded_file]> (files w)
  /\ result_widgets (trace (snd (main E w))) = result_widgets (trace w)
  /\ exists before,
      trace (snd (main E w))
      = (before ++ [EvPost API_URL (bearer E) {[ "inputs" := story ]}])%list.
Proof.
  intros Hfile Hcaption Htell Hpost.
  destruct (tell_ok_run _ _ _ _ Htell) as (text & _ & Hrun).
  destruct (main_prelude_shows_no_result E uploaded_file w Hfile) as (evs & Hall & Hmain).
  assert (Hend : main E w
                 = (Raise e,
                    {| log := [EvPost API_URL (bearer E) {[ "inputs" := story ]};
                               EvPrint ("GENERATED STORY OUTPUT: " +:+ story);
                               EvPrint ("TEXT INPUT: " +:+ scenario);
                               EvPredict gpt text;
                               EvChatOpenAI "gpt-3.5-turbo" 1;
                               EvPrint ("GENERATED TEXT OUTPUT: " +:+ scenario);
                               EvPrint ("IMAGE INPUT: " +:+ name uploaded_file);
                               EvImageToText (name uploaded_file);
                               EvPipeline "image-to-text"
                                          "nlpconnect/vit-gpt2-image-captioning"]
                              ++ evs ++ log w;
                       files := <[name uploaded_file := getvalue uploaded_file]>
                                  (files w) |})).
  { rewrite Hmain. unfold bind at 1. rewrite (caption_ok_run _ _ _ _ Hcaption).
    unfold bind at 1. rewrite Hrun.
    unfold bind at 1. rewrite narrate_run, Hpost. reflexivity. }
  rewrite Hend. split; [reflexivity|]. split; [reflexivity|]. split.
  - unfold result_widgets, trace. cbn [snd log app].
    rewrite !select_trace_cons. cbn [is_result_widget]. rewrite !app_nil_r.
    apply (select_none is_result_widget (fun e => negb (is_result_widget e)));
      [|exact Hall].
    intros ev Hev. apply negb_true_iff, Hev.
  - unfold trace. cbn [snd log app].
    match goal with
    | |- context [rev (_ :: ?rest)] => exists (rev rest)
    end.
    reflexivity.
Qed.

Lemma main_narrate_failure_witness :
  fst (main speech_unreachable_env crowded_world) = Raise (External "connection refused")
  /\ files (snd (main speech_unreachable_env crowded_world)) !! "generated_audio.flac"
     = Some (list_byte_of_string "older, longer audio")
  /\ result_widgets (trace (snd (main speech_unreachable_env crowded_world))) = [].
Proof.
  destruct (main_narrate_failure speech_unreachable_env cat_jpg crowded_world
              "a cat sitting on a windowsill" "The cat watched the rain and purred."
              (External "connection refused") eq_refl eq_refl eq_refl eq_refl)
    as (Hr & Hf & Hw & _).
  rewrite Hr, Hf, Hw. split; [reflexivity|]. split; [|reflexivity].
  vm_compute. reflexivity.
Defined.
